(** * expo-magic-curtain: the theme-switch curtain and the card toggles

    A shallow embedding of the screen component ([App]), of the shader
    template helpers ([glsl], [frag], [transition], [directionalwrap]) and of
    the card grid ([Cards], [Card]), with the properties of the
    specification proved about them.

    Layout of the development:
    - [Template] : the tagged templates [glsl] and [frag];
    - [Glsl]     : the meaning of the wipe shader over the reals;
    - [Screen]   : the component state, its event handlers, the render
                   function and the event loop that runs the handlers;
    - [Cards]    : the four "liked" atoms and the card press handler;
    - [Curtain]  : the shader applied to the two snapshots;
    - then the properties, one module of facts per part. *)

From Stdlib Require Import List String Ascii Bool ZArith QArith Lia Floats.
From Stdlib Require Import Reals Lra.
Import ListNotations.

(* ================================================================= *)
(** * Tagged templates: [glsl] and [frag] *)
(* ================================================================= *)

Module Template.

Local Open Scope string_scope.

(** [type Value = string | number;] a JavaScript number is a binary64
    float. *)
Inductive Value : Type :=
| Str (s : string)
| Num (n : float).

(** [type Values = Value[];] *)
Definition Values := list Value.

(** [TemplateStringsArray]: the literal segments of a tagged template. *)
Definition TemplateStringsArray := list string.

(** An element of the array built by [flatMap]: a segment, a value, or
    [undefined] ([None]) when [values[i]] is read past the end. *)
Definition Elem := option Value.

(** [values[i]]: a read out of range gives [undefined]. *)
Definition index (values : Values) (i : nat) : Elem := nth_error values i.

(** [Boolean(x)]: [undefined], the empty string, [0], [-0] and [NaN] are
    falsy; everything else of these types is truthy. *)
Definition Boolean (x : Elem) : bool :=
  match x with
  | None => false
  | Some (Str s) => negb (String.eqb s "")
  | Some (Num n) => negb (PrimFloat.eqb n 0%float || PrimFloat.is_nan n)
  end.

(** [Array.prototype.flatMap], the callback receiving the index. *)
Fixpoint flatMap_from {A B : Type} (f : A -> nat -> list B) (i : nat)
  (l : list A) : list B :=
  match l with
  | [] => []
  | x :: rest => f x i ++ flatMap_from f (S i) rest
  end.

Definition flatMap {A B : Type} (f : A -> nat -> list B) (l : list A) :=
  flatMap_from f 0 l.

(** The outcome of a function that may throw. *)
Inductive Outcome (A : Type) : Type :=
| Returned (a : A)
| Thrown (message : string).
Arguments Returned {A} a.
Arguments Thrown {A} message.

(** What [frag] asks of the Skia runtime: each entry is one call of
    [Skia.RuntimeEffect.Make], with the source it was given. *)
Definition MakeCalls := list string.

Section WithRuntime.

(** [Number.prototype.toString], which [join] applies to numeric values;
    the algorithm is the engine's and stays a parameter. *)
Variable NumberToString : float -> string.

(** [ToString] as [join] applies it: [undefined] gives the empty string. *)
Definition ToString (x : Elem) : string :=
  match x with
  | None => ""
  | Some (Str s) => s
  | Some (Num n) => NumberToString n
  end.

(** [Array.prototype.join(sep)]. *)
Fixpoint join (sep : string) (l : list Elem) : string :=
  match l with
  | [] => ""
  | x :: rest =>
      match rest with
      | [] => ToString x
      | _ :: _ => ToString x ++ sep ++ join sep rest
      end
  end.

(** [[
    export const glsl = (source: TemplateStringsArray, ...values: Values) => {
      const processed = source.flatMap((s, i) => [s, values[i]]).filter(Boolean);
      return processed.join("");
    };
    ]] *)
Definition glsl (source : TemplateStringsArray) (values : Values) : string :=
  let processed :=
    filter Boolean
      (flatMap (fun s i => [Some (Str s); index values i]) source) in
  join "" processed.

(** ** The reading of [glsl] given in the specification *)

(** The segments interleaved with the interpolated values:
    [s0, v0, s1, v1, ...]. *)
Fixpoint interleave (segments : list string) (values : Values) : list Value :=
  match segments with
  | [] => []
  | s :: segments' =>
      match values with
      | [] => Str s :: interleave segments' []
      | v :: values' => Str s :: v :: interleave segments' values'
      end
  end.

(** A falsy element, in the sense of [filter(Boolean)]. *)
Definition falsy (v : Value) : bool := negb (Boolean (Some v)).

Definition render_value (v : Value) : string := ToString (Some v).

Fixpoint concat_all (l : list string) : string :=
  match l with
  | [] => ""
  | s :: rest => s ++ concat_all rest
  end.

(** The concatenation of the interleaving, every falsy element dropped. *)
Definition glsl_spec (segments : list string) (values : Values) : string :=
  concat_all
    (map render_value
       (filter (fun v => negb (falsy v)) (interleave segments values))).

(** ** [frag] *)

(** A compiled runtime effect, and the compiler
    [Skia.RuntimeEffect.Make : (sksl: string) => SkRuntimeEffect | null]. *)
Variable SkRuntimeEffect : Type.
Variable Make : string -> option SkRuntimeEffect.

(** [[
    export const frag = (source: TemplateStringsArray, ...values: Values) => {
      const code = glsl(source, ...values);
      const rt = Skia.RuntimeEffect.Make(code);
      if (rt === null) {
        throw new Error("Couln't Compile Shader");
      }
      return rt;
    };
    ]]
    The result comes with the calls made to the compiler. *)
Definition frag (source : TemplateStringsArray) (values : Values)
  : Outcome SkRuntimeEffect * MakeCalls :=
  let code := glsl source values in
  let rt := Make code in
  match rt with
  | None => (Thrown "Couln't Compile Shader", [code])
  | Some rt => (Returned rt, [code])
  end.

(** [type Transition = string;] *)
Definition Transition := string.

(** The two literal segments of the template in [transition]. *)
Definition transition_head : string :=
"
  uniform shader image1;
  uniform shader image2;

  uniform float progress;
  uniform float2 resolution;
  
  half4 getFromColor(float2 uv) {
    return image1.eval(uv * resolution);
  }
  
  half4 getToColor(float2 uv) {
    return image2.eval(uv * resolution);
  }
  
  ".

Definition transition_tail : string :=
"

  half4 main(vec2 xy) {
    vec2 uv = xy / resolution;
    return transition(uv);
  }
  ".

(** [const transition = (t: Transition) => { return frag`...${t}...`; };] *)
Definition transition (t : Transition)
  : Outcome SkRuntimeEffect * MakeCalls :=
  frag [transition_head; transition_tail] [Str t].

(** The single literal segment of the template [directionalwrap]. *)
Definition directionalwrap_text : string :=
"
// Author: pschroen
// License: MIT

const vec2 direction = vec2(-1.0, 1.0);

const float smoothness = 0.5;
const vec2 center = vec2(0.5, 0.5);

vec4 transition (vec2 uv) {
  vec2 v = normalize(direction);
  v /= abs(v.x) + abs(v.y);
  float d = v.x * center.x + v.y * center.y;
  float m = 1.0 - smoothstep(-smoothness, 0.0, v.x * uv.x + v.y * uv.y - (d - 0.5 + progress * (1.0 + smoothness)));
  return mix(getFromColor((uv - 0.5) * (1.0 - m) + 0.5), getToColor((uv - 0.5) * m + 0.5), m);
}


".

(** [const directionalwrap: Transition = glsl`...`;] *)
Definition directionalwrap : Transition := glsl [directionalwrap_text] [].

End WithRuntime.

End Template.

(* ================================================================= *)
(** * The wipe shader, read over the reals *)
(* ================================================================= *)

(** The SkSL program assembled by [transition(directionalwrap)], function
    by function.  Floats of the GPU are idealised as real numbers. *)

Module Glsl.

Local Open Scope R_scope.

Record vec2 : Type := Vec2 { x : R; y : R }.
Record vec4 : Type := Vec4 { c0 : R; c1 : R; c2 : R; c3 : R }.

(** A child shader: [image.eval(coords)] gives a colour. *)
Definition shader := vec2 -> vec4.

(** Component-wise arithmetic of [vec2], with the scalar forms SkSL
    promotes. *)
Definition vmul (a b : vec2) : vec2 := Vec2 (x a * x b) (y a * y b).
Definition vdiv (a b : vec2) : vec2 := Vec2 (x a / x b) (y a / y b).
Definition vscale (a : vec2) (k : R) : vec2 := Vec2 (x a * k) (y a * k).
Definition vdivs (a : vec2) (k : R) : vec2 := Vec2 (x a / k) (y a / k).
Definition vadds (a : vec2) (k : R) : vec2 := Vec2 (x a + k) (y a + k).
Definition vsubs (a : vec2) (k : R) : vec2 := Vec2 (x a - k) (y a - k).

(** Built-ins. *)
Definition length (v : vec2) : R := sqrt (x v * x v + y v * y v).
Definition normalize (v : vec2) : vec2 := vdivs v (length v).
Definition clamp (v lo hi : R) : R := Rmin (Rmax v lo) hi.
Definition smoothstep (edge0 edge1 v : R) : R :=
  let t := clamp ((v - edge0) / (edge1 - edge0)) 0 1 in
  t * t * (3 - 2 * t).
Definition mix (a b : vec4) (k : R) : vec4 :=
  Vec4 (c0 a * (1 - k) + c0 b * k) (c1 a * (1 - k) + c1 b * k)
       (c2 a * (1 - k) + c2 b * k) (c3 a * (1 - k) + c3 b * k).

Section Program.

(** [uniform shader image1; uniform shader image2;
     uniform float progress; uniform float2 resolution;] *)
Variables image1 image2 : shader.
Variable progress : R.
Variable resolution : vec2.

(** [half4 getFromColor(float2 uv) { return image1.eval(uv * resolution); }] *)
Definition getFromColor (uv : vec2) : vec4 := image1 (vmul uv resolution).

(** [half4 getToColor(float2 uv) { return image2.eval(uv * resolution); }] *)
Definition getToColor (uv : vec2) : vec4 := image2 (vmul uv resolution).

(** [const vec2 direction = vec2(-1.0, 1.0); const float smoothness = 0.5;
     const vec2 center = vec2(0.5, 0.5);] *)
Definition direction : vec2 := Vec2 (-1) 1.
Definition smoothness : R := 5 / 10.
Definition center : vec2 := Vec2 (5 / 10) (5 / 10).

(** [[
    vec4 transition (vec2 uv) {
      vec2 v = normalize(direction);
      v /= abs(v.x) + abs(v.y);
      float d = v.x * center.x + v.y * center.y;
      float m = 1.0 - smoothstep(-smoothness, 0.0,
         v.x * uv.x + v.y * uv.y - (d - 0.5 + progress * (1.0 + smoothness)));
      return mix(getFromColor((uv - 0.5) * (1.0 - m) + 0.5),
                 getToColor((uv - 0.5) * m + 0.5), m);
    }
    ]] *)
Definition transition (uv : vec2) : vec4 :=
  let v := normalize direction in
  let v := vdivs v (Rabs (x v) + Rabs (y v)) in
  let d := x v * x center + y v * y center in
  let m :=
    1 - smoothstep (- smoothness) 0
          (x v * x uv + y v * y uv
           - (d - 5 / 10 + progress * (1 + smoothness))) in
  mix (getFromColor (vadds (vscale (vsubs uv (5 / 10)) (1 - m)) (5 / 10)))
      (getToColor (vadds (vscale (vsubs uv (5 / 10)) m) (5 / 10)))
      m.

(** [half4 main(vec2 xy) { vec2 uv = xy / resolution; return transition(uv); }] *)
Definition main (xy : vec2) : vec4 :=
  let uv := vdiv xy resolution in
  transition uv.

End Program.

(** The wipe mask in closed form: with the direction fixed at [(-1, 1)] the
    normalised, rescaled direction is [(-1/2, 1/2)] and [d] is [0]. *)
Definition wipe_mask (progress : R) (uv : vec2) : R :=
  1 - smoothstep (- (1 / 2)) 0
        ((y uv - x uv) / 2 + 1 / 2 - progress * (3 / 2)).

End Glsl.

(* ================================================================= *)
(** * The screen component [App] *)
(* ================================================================= *)

Module Screen.

Import Template.
Local Open Scope Z_scope.

(** [ColorSchemeName = 'light' | 'dark' | null | undefined], the type of
    [useColorScheme()] and of the listener's argument. *)
Inductive ColorSchemeName : Type := light | dark | null | undefined.

(** Strict equality [===] on colour schemes. *)
Definition scheme_eqb (a b : ColorSchemeName) : bool :=
  match a, b with
  | light, light | dark, dark | null, null | undefined, undefined => true
  | _, _ => false
  end.

(** [SkImage]: a handle on a native bitmap. *)
Inductive SkImage : Type := Bitmap (id : nat).

(** The completion callback given to [withTiming]: the source has one,
    the arrow function that clears both snapshots. *)
Inductive Callback : Type := clearSnapshots.

(** A running [withTiming(toValue, { duration }, callback)]. *)
Record Animation : Type := {
  toValue : Q;
  duration : Z;
  callback : Callback;
  startValue : Q;
  startTime : Z
}.

(** A shared value: the value last stored and the animation driving it,
    if any. *)
Record SharedValue : Type := {
  stored : Q;
  animation : option Animation
}.

(** The hooks of [App]:
    [[
    const progress = useSharedValue(0);
    const colorScheme = useColorScheme();
    const colorSchemeSv = useSharedValue(colorScheme);
    const [firstSnapshot, setFirstSnapshot] = useState<SkImage | null>(null);
    const [secondSnapshot, setSecondSnapshot] = useState<SkImage | null>(null);
    ]] *)
Record App : Type := {
  progress : SharedValue;
  colorScheme : ColorSchemeName;
  colorSchemeSv : ColorSchemeName;
  firstSnapshot : option SkImage;
  secondSnapshot : option SkImage
}.

(** Work that is waiting for its turn on the JavaScript thread. *)
Inductive Task : Type :=
| changeTheme_awaiting (colorScheme : ColorSchemeName)
    (** [changeTheme] suspended at [await makeImageFromView(ref)], with the
        [colorScheme] of the render that created the closure *)
| timeout_scheduled (due : Z) (colorScheme : ColorSchemeName)
    (** the [setTimeout(..., 100)] of the appearance listener *)
| timeout_awaiting (colorScheme : ColorSchemeName)
    (** the timeout callback suspended at [await makeImageFromView(ref)] *)
| runOnJS_setFirstSnapshot (v : option SkImage)
    (** [runOnJS(setFirstSnapshot)(v)] *)
| runOnJS_setSecondSnapshot (v : option SkImage).
    (** [runOnJS(setSecondSnapshot)(v)] *)

(** The calls a handler makes, in the order it makes them. *)
Inductive Action : Type :=
| progress_assigned (v : Q)
| makeImageFromView_called
| setFirstSnapshot_called (v : option SkImage)
| setSecondSnapshot_called (v : option SkImage)
| setColorScheme_called (scheme : ColorSchemeName)
| listener_called (scheme : ColorSchemeName)
| console_log (scheme : ColorSchemeName)
| colorSchemeSv_assigned (scheme : ColorSchemeName)
| withTiming_started (toValue : Q) (duration : Z)
| callback_called (finished : bool).

(** The component together with what surrounds it: the clock (in
    milliseconds), the waiting work and the calls made so far. *)
Record Runtime : Type := {
  app : App;
  clock : Z;
  pending : list Task;
  trace : list Action
}.

(** ** A state monad for the handlers *)

Definition M (A : Type) : Type := Runtime -> A * Runtime.

Definition ret {A : Type} (a : A) : M A := fun w => (a, w).

Definition bind {A B : Type} (m : M A) (k : A -> M B) : M B :=
  fun w => let (a, w') := m w in k a w'.

Declare Scope handler_scope.
Delimit Scope handler_scope with handler.
Notation "x <- m ;; k" := (bind m (fun x => k))
  (at level 61, m at next level, right associativity) : handler_scope.
Notation "m ;; k" := (bind m (fun _ => k))
  (at level 61, right associativity) : handler_scope.
Local Open Scope handler_scope.

Definition exec (m : M unit) (w : Runtime) : Runtime := snd (m w).

Definition gets {A : Type} (f : Runtime -> A) : M A := fun w => (f w, w).

Definition modify_app (f : App -> App) : M unit :=
  fun w => (tt, {| app := f (app w); clock := clock w;
                   pending := pending w; trace := trace w |}).

Definition record (a : Action) : M unit :=
  fun w => (tt, {| app := app w; clock := clock w;
                   pending := pending w; trace := trace w ++ [a] |}).

Definition enqueue (t : Task) : M unit :=
  fun w => (tt, {| app := app w; clock := clock w;
                   pending := pending w ++ [t]; trace := trace w |}).

(** ** State setters *)

Definition with_progress (v : SharedValue) (a : App) : App :=
  {| progress := v; colorScheme := colorScheme a;
     colorSchemeSv := colorSchemeSv a;
     firstSnapshot := firstSnapshot a; secondSnapshot := secondSnapshot a |}.

Definition with_colorScheme (s : ColorSchemeName) (a : App) : App :=
  {| progress := progress a; colorScheme := s;
     colorSchemeSv := colorSchemeSv a;
     firstSnapshot := firstSnapshot a; secondSnapshot := secondSnapshot a |}.

Definition with_colorSchemeSv (s : ColorSchemeName) (a : App) : App :=
  {| progress := progress a; colorScheme := colorScheme a;
     colorSchemeSv := s;
     firstSnapshot := firstSnapshot a; secondSnapshot := secondSnapshot a |}.

Definition with_firstSnapshot (v : option SkImage) (a : App) : App :=
  {| progress := progress a; colorScheme := colorScheme a;
     colorSchemeSv := colorSchemeSv a;
     firstSnapshot := v; secondSnapshot := secondSnapshot a |}.

Definition with_secondSnapshot (v : option SkImage) (a : App) : App :=
  {| progress := progress a; colorScheme := colorScheme a;
     colorSchemeSv := colorSchemeSv a;
     firstSnapshot := firstSnapshot a; secondSnapshot := v |}.

(** [setFirstSnapshot(v)] and [setSecondSnapshot(v)]. *)
Definition setFirstSnapshot (v : option SkImage) : M unit :=
  record (setFirstSnapshot_called v) ;;
  modify_app (with_firstSnapshot v).

Definition setSecondSnapshot (v : option SkImage) : M unit :=
  record (setSecondSnapshot_called v) ;;
  modify_app (with_secondSnapshot v).

(** [runOnJS(f)(v)]: the call is handed to the JavaScript thread. *)
Definition runOnJS (t : Task) : M unit := enqueue t.

(** The callback of [withTiming], lines 141 to 144; it ignores its
    [finished] argument:
    [[
    () => {
      runOnJS(setFirstSnapshot)(null);
      runOnJS(setSecondSnapshot)(null);
    }
    ]] *)
Definition run_callback (c : Callback) (finished : bool) : M unit :=
  record (callback_called finished) ;;
  match c with
  | clearSnapshots =>
      runOnJS (runOnJS_setFirstSnapshot None) ;;
      runOnJS (runOnJS_setSecondSnapshot None)
  end.

(** ** The element tree *)

(** [uniforms]: what the shader receives besides its children. *)
Record Uniforms : Type := {
  u_progress : Q;
  u_resolution : Q * Q
}.

Inductive Style : Type :=
| flex (n : Z)
| style_height (h : Q)
| style_width (w : Q)
| backgroundColor (c : string)
| color (c : string)
| styles (name : string)
    (** an entry of [StyleSheet.create], by name *)
| interpolated_backgroundColor (value : Q) (outputRange : string * string).
    (** [interpolateColor(value, [0, 1], outputRange)] *)

(** The only handler the tree of [App] carries. *)
Inductive Handler : Type := onPress_changeTheme.

#[local] Set Warnings "-register-all".
Inductive Element (Effect : Type) : Type :=
| AnimatedView (style : list Style) (children : list (Element Effect))
| View (ref : bool) (style : list Style) (children : list (Element Effect))
| Canvas (style : list Style) (children : list (Element Effect))
| Fill (children : list (Element Effect))
| Shader (source : Effect) (uniforms : Uniforms)
    (children : list (Element Effect))
| ImageShader (image : option SkImage) (fit : string) (width height : Q)
| Image (image : option SkImage) (fit : string) (width height : Q)
| Text (style : list Style) (text : string)
| Pressable (style : list Style) (onPress : Handler)
    (children : list (Element Effect))
| MoonIcon (color : string)
| SunIcon (color : string)
| SearchBar
| Trending
| Cards
| BottomTabs.
Arguments AnimatedView {Effect} style children.
Arguments View {Effect} ref style children.
Arguments Canvas {Effect} style children.
Arguments Fill {Effect} children.
Arguments Shader {Effect} source uniforms children.
Arguments Pressable {Effect} style onPress children.

(** Whether the theme switcher is somewhere in a tree. *)
Fixpoint has_switcher {Effect : Type} (e : Element Effect) : bool :=
  match e with
  | Pressable _ onPress_changeTheme _ => true
  | AnimatedView _ children | View _ _ children | Canvas _ children
  | Fill children | Shader _ _ children => existsb has_switcher children
  | _ => false
  end.

(** The bitmaps a tree draws, from left to right. *)
Fixpoint images_drawn {Effect : Type} (e : Element Effect) : list SkImage :=
  match e with
  | ImageShader _ (Some i) _ _ _ | Image _ (Some i) _ _ _ => [i]
  | AnimatedView _ children | View _ _ children | Canvas _ children
  | Fill children | Shader _ _ children | Pressable _ _ children =>
      flat_map images_drawn children
  | _ => []
  end.

Section WithEasing.

(** The easing curve of [withTiming]; the source passes none, so it is the
    animation library's default. *)
Variable easing : Q -> Q.

(** The value of a timing animation at a given time: the target once the
    duration has elapsed, the eased interpolation before. *)
Definition timing_value (a : Animation) (now : Z) : Q :=
  let runtime := now - startTime a in
  if duration a <=? runtime then toValue a
  else (startValue a
        + (toValue a - startValue a)
          * easing (inject_Z runtime / inject_Z (duration a)))%Q.

(** [progress.value], read at a given time. *)
Definition read (v : SharedValue) (now : Z) : Q :=
  match animation v with
  | None => stored v
  | Some a => timing_value a now
  end.

(** Any assignment to a shared value cancels the animation that was
    driving it; a cancelled animation calls its callback with [false]. *)
Definition cancel_animation : M unit :=
  v <- gets (fun w => progress (app w)) ;;
  match animation v with
  | None => ret tt
  | Some a => run_callback (callback a) false
  end.

(** [progress.value = v]. *)
Definition assign_progress (v : Q) : M unit :=
  record (progress_assigned v) ;;
  cancel_animation ;;
  modify_app (with_progress {| stored := v; animation := None |}).

(** [progress.value = withTiming(toValue, { duration }, callback)]. *)
Definition assign_progress_withTiming (target : Q) (ms : Z) (c : Callback)
  : M unit :=
  record (withTiming_started target ms) ;;
  now <- gets clock ;;
  v <- gets (fun w => progress (app w)) ;;
  cancel_animation ;;
  let from := read v now in
  modify_app
    (with_progress
       {| stored := from;
          animation := Some {| toValue := target; duration := ms;
                               callback := c; startValue := from;
                               startTime := now |} |}).

(** ** The handlers of [App] *)

(** [setTimeout(..., 100)] in the appearance listener, lines 135 to 146:
    the body runs no sooner than 100 ms later. *)
Definition listener (scheme : ColorSchemeName) : M unit :=
  record (listener_called scheme) ;;
  now <- gets clock ;;
  enqueue (timeout_scheduled (now + 100) scheme).

(** A change of appearance: [useColorScheme()] gives the new scheme and
    the listener added with [Appearance.addChangeListener] is called. *)
Definition appearance_changed (scheme : ColorSchemeName) : M unit :=
  modify_app (with_colorScheme scheme) ;;
  listener scheme.

(** [Appearance.setColorScheme(scheme)]: listeners hear of it when the
    scheme changes. *)
Definition Appearance_setColorScheme (scheme : ColorSchemeName) : M unit :=
  record (setColorScheme_called scheme) ;;
  current <- gets (fun w => colorScheme (app w)) ;;
  if scheme_eqb current scheme then ret tt else appearance_changed scheme.

(** [changeTheme], lines 127 to 132, up to its [await]:
    [[
    progress.value = 0;
    const snapshot1 = await makeImageFromView(ref);
    ]] *)
Definition changeTheme : M unit :=
  scheme <- gets (fun w => colorScheme (app w)) ;;
  assign_progress 0 ;;
  record makeImageFromView_called ;;
  enqueue (changeTheme_awaiting scheme).

(** The scheme [changeTheme] asks for:
    [colorScheme === "light" ? "dark" : "light"]. *)
Definition toggled (scheme : ColorSchemeName) : ColorSchemeName :=
  if scheme_eqb scheme light then dark else light.

(** [changeTheme] after its [await]:
    [[
    setFirstSnapshot(snapshot1);
    Appearance.setColorScheme(colorScheme === "light" ? "dark" : "light");
    ]] *)
Definition changeTheme_resume (scheme : ColorSchemeName)
  (snapshot1 : option SkImage) : M unit :=
  setFirstSnapshot snapshot1 ;;
  Appearance_setColorScheme (toggled scheme).

(** The timeout callback, lines 136 to 145, up to its [await]:
    [[
    console.log(colorScheme);
    const snapshot2 = await makeImageFromView(ref);
    ]] *)
Definition timeout_callback (scheme : ColorSchemeName) : M unit :=
  record (console_log scheme) ;;
  record makeImageFromView_called ;;
  enqueue (timeout_awaiting scheme).

(** The timeout callback after its [await]:
    [[
    setSecondSnapshot(snapshot2);
    colorSchemeSv.value = colorScheme;
    progress.value = withTiming(1, { duration: 1700 }, () => { ... });
    ]] *)
Definition timeout_resume (scheme : ColorSchemeName)
  (snapshot2 : option SkImage) : M unit :=
  setSecondSnapshot snapshot2 ;;
  record (colorSchemeSv_assigned scheme) ;;
  modify_app (with_colorSchemeSv scheme) ;;
  assign_progress_withTiming 1 1700 clearSnapshots.

(** The running animation reaches its duration: the value is the target
    and the callback is called with [true]. *)
Definition finish_animation (a : Animation) : M unit :=
  modify_app (with_progress {| stored := toValue a; animation := None |}) ;;
  run_callback (callback a) true.

(** [const transitioning = firstSnapshot !== null && secondSnapshot !== null;] *)
Definition is_null {A : Type} (v : option A) : bool :=
  match v with None => true | Some _ => false end.

Definition transitioning (a : App) : bool :=
  negb (is_null (firstSnapshot a)) && negb (is_null (secondSnapshot a)).

(** ** The event loop *)

(** What can happen to the mounted component, its listener registered.
    A capture ([makeImageFromView]) is settled from outside: it gives a
    bitmap, or it fails and the [async] function that awaits it ends
    there.  Waiting work runs in any order. *)
Inductive Event : Type :=
| press
    (** the theme switcher is pressed *)
| system_appearance (scheme : ColorSchemeName)
    (** the system changes the colour scheme *)
| tick (dt : Z)
    (** [dt] milliseconds pass *)
| capture_fulfilled (i : nat) (image : SkImage)
    (** the capture awaited by the [i]-th waiting task gives a bitmap *)
| capture_rejected (i : nat)
    (** the capture awaited by the [i]-th waiting task fails: the
        [async] function ends there *)
| timeout_fires (i : nat)
    (** the [i]-th waiting task, a timeout that is due, runs *)
| animation_ends
    (** the timing animation has run for its duration *)
| js_call (i : nat).
    (** the [i]-th waiting task, a [runOnJS] call, runs *)

Definition remove_nth {A : Type} (i : nat) (l : list A) : list A :=
  firstn i l ++ skipn (S i) l.

Definition dequeue (i : nat) : M unit :=
  fun w => (tt, {| app := app w; clock := clock w;
                   pending := remove_nth i (pending w); trace := trace w |}).

Definition advance (dt : Z) : M unit :=
  fun w => (tt, {| app := app w; clock := clock w + dt;
                   pending := pending w; trace := trace w |}).

(** One event; [None] when the event cannot happen in this state.  The
    theme switcher is part of the tree only in the branch that is not
    [transitioning]. *)
Definition step (e : Event) (w : Runtime) : option Runtime :=
  match e with
  | press =>
      if transitioning (app w) then None else Some (exec changeTheme w)
  | system_appearance scheme =>
      if scheme_eqb (colorScheme (app w)) scheme then None
      else Some (exec (appearance_changed scheme) w)
  | tick dt =>
      if 0 <=? dt then Some (exec (advance dt) w) else None
  | capture_fulfilled i image =>
      match nth_error (pending w) i with
      | Some (changeTheme_awaiting scheme) =>
          Some (exec (dequeue i ;; changeTheme_resume scheme (Some image)) w)
      | Some (timeout_awaiting scheme) =>
          Some (exec (dequeue i ;; timeout_resume scheme (Some image)) w)
      | _ => None
      end
  | capture_rejected i =>
      match nth_error (pending w) i with
      | Some (changeTheme_awaiting _) | Some (timeout_awaiting _) =>
          Some (exec (dequeue i) w)
      | _ => None
      end
  | timeout_fires i =>
      match nth_error (pending w) i with
      | Some (timeout_scheduled due scheme) =>
          if due <=? clock w
          then Some (exec (dequeue i ;; timeout_callback scheme) w)
          else None
      | _ => None
      end
  | animation_ends =>
      match animation (progress (app w)) with
      | Some a =>
          if startTime a + duration a <=? clock w
          then Some (exec (finish_animation a) w)
          else None
      | None => None
      end
  | js_call i =>
      match nth_error (pending w) i with
      | Some (runOnJS_setFirstSnapshot v) =>
          Some (exec (dequeue i ;; setFirstSnapshot v) w)
      | Some (runOnJS_setSecondSnapshot v) =>
          Some (exec (dequeue i ;; setSecondSnapshot v) w)
      | _ => None
      end
  end.

(** A sequence of events, from left to right. *)
Fixpoint run (es : list Event) (w : Runtime) : option Runtime :=
  match es with
  | [] => Some w
  | e :: es' =>
      match step e w with
      | Some w' => run es' w'
      | None => None
      end
  end.

(** The component as first mounted, at time [t0] under the scheme
    [scheme]. *)
Definition mounted (scheme : ColorSchemeName) (t0 : Z) : Runtime :=
  {| app := {| progress := {| stored := 0; animation := None |};
               colorScheme := scheme;
               colorSchemeSv := scheme;
               firstSnapshot := None;
               secondSnapshot := None |};
     clock := t0;
     pending := [];
     trace := [] |}.

Definition reachable (w : Runtime) : Prop :=
  exists scheme t0 es, run es (mounted scheme t0) = Some w.

(** ** Notions used to state the properties *)

(** The bitmaps the component holds. *)
Definition held (v : option SkImage) : list SkImage :=
  match v with Some i => [i] | None => [] end.

Definition snapshots_held (a : App) : list SkImage :=
  held (firstSnapshot a) ++ held (secondSnapshot a).

(** The two phases of the screen, read off [transitioning]. *)
Inductive Phase : Type := idle | in_transition.

Definition phase (a : App) : Phase :=
  if transitioning a then in_transition else idle.

(** Counting in the waiting work and in the calls made. *)
Definition count {A : Type} (p : A -> bool) (l : list A) : nat :=
  List.length (filter p l).






(** A waiting [runOnJS] call passes [null]. *)
Definition passes_null (t : Task) : Prop :=
  match t with
  | runOnJS_setFirstSnapshot v | runOnJS_setSecondSnapshot v => v = None
  | _ => True
  end.


(** The animation that will clear the second snapshot is running, or its
    callback has run and the clearing call is waiting. *)
Definition completion_ahead (w : Runtime) : Prop :=
  animation (progress (app w)) <> None
  \/ In (runOnJS_setSecondSnapshot None) (pending w).

(** The events by which a transition completes: time passing, the
    animation ending, and the calls handed over by its callback. *)
Definition completes (e : Event) : bool :=
  match e with
  | tick _ | animation_ends | js_call _ => true
  | _ => false
  end.

(** ** The events of one theme toggle *)

(** The position the work of a toggle takes in the waiting list: behind
    what is waiting already, and behind the two calls handed over by an
    animation that the press cancels. *)
Definition slot (w : Runtime) : nat :=
  (List.length (pending w)
   + match animation (progress (app w)) with Some _ => 2 | None => 0 end)%nat.

(** The press and the first capture. *)
Definition capture_first (n : nat) (image : SkImage) : list Event :=
  [press; capture_fulfilled n image].

(** The timeout of the appearance listener and the second capture. *)
Definition capture_second (n : nat) (image : SkImage) : list Event :=
  [tick 100; timeout_fires n; capture_fulfilled n image].

(** The animation running to its end, and the two calls of its callback. *)
Definition completion (n : nat) : list Event :=
  [tick 1700; animation_ends; js_call n; js_call n].

(** ** The render function *)

(** [Skia.RuntimeEffect.Make], [Number.prototype.toString] and the window
    size, [const { width, height } = Dimensions.get("window");]. *)
Variable NumberToString : float -> string.
Variable SkRuntimeEffect : Type.
Variable Make : string -> option SkRuntimeEffect.
Variables width height : Q.

(** [[
    const uniforms = useDerivedValue(() => {
      return { progress: progress.value, resolution: [width, height] };
    });
    ]] *)
Definition uniforms (w : Runtime) : Uniforms :=
  {| u_progress := read (progress (app w)) (clock w);
     u_resolution := (width, height) |}.

(** [[
    const animatedBackgroundColor = useAnimatedStyle(() => {
      return {
        backgroundColor: interpolateColor(
          progress.value,
          [0, 1],
          colorSchemeSv.value === "light"
            ? ["#020617", "#ffffff"]
            : ["#ffffff", "#020617"],
        ),
      };
    });
    ]] *)
Definition animatedBackgroundColor (w : Runtime) : Style :=
  interpolated_backgroundColor
    (read (progress (app w)) (clock w))
    (if scheme_eqb (colorSchemeSv (app w)) light
     then ("#020617", "#ffffff")
     else ("#ffffff", "#020617"))%string.

(** [colorScheme === "light" ? a : b]. *)
Definition when_light {A : Type} (scheme : ColorSchemeName) (a b : A) : A :=
  if scheme_eqb scheme light then a else b.

(** The branch taken when [transitioning], lines 162 to 183. *)
Definition curtain (source : SkRuntimeEffect) (w : Runtime)
  : Element SkRuntimeEffect :=
  AnimatedView [flex 1; animatedBackgroundColor w]
    [Canvas [style_height height]
       [Fill
          [Shader source (uniforms w)
             [ImageShader _ (firstSnapshot (app w)) "cover" width height;
              ImageShader _ (secondSnapshot (app w)) "cover" width height]]]].

(** [{firstSnapshot && (<Canvas ...><Image image={firstSnapshot} .../></Canvas>)}],
    lines 187 to 196: nothing is rendered for [null]. *)
Definition overlay (a : App) : list (Element SkRuntimeEffect) :=
  match firstSnapshot a with
  | Some _ =>
      [Canvas [style_height height]
         [Image _ (firstSnapshot a) "cover" width height]]
  | None => []
  end.

(** The view that carries [ref], lines 197 to 240. *)
Definition content (a : App) : Element SkRuntimeEffect :=
  let scheme := colorScheme a in
  View true
    [styles "container";
     when_light scheme (backgroundColor "white") (backgroundColor "#020617")]
    [View false
       [style_width width;
        when_light scheme (backgroundColor "white") (backgroundColor "#020617")]
       [View false [styles "padding"]
          [View false [styles "row"]
             [Text _
                [styles "header";
                 when_light scheme (color "#0f172a") (color "#f1f5f9")]
                "Home";
              Pressable [styles "themeSwitcher"] onPress_changeTheme
                [when_light scheme (MoonIcon _ "#1e293b") (SunIcon _ "#e2e8f0")]];
           SearchBar _; Trending _; Cards _];
        BottomTabs _]].

(** The body of [App] from line 160 on.  [transition(directionalwrap)] is
    evaluated while rendering the [transitioning] branch, so a throw of
    [frag] is a throw of the render. *)
Definition render (w : Runtime) : Outcome (Element SkRuntimeEffect) :=
  let a := app w in
  if transitioning a then
    match fst (transition NumberToString SkRuntimeEffect Make
                 (directionalwrap NumberToString)) with
    | Returned source => Returned (curtain source w)
    | Thrown message => Thrown message
    end
  else
    Returned (View false [flex 1] (overlay a ++ [content a])).

End WithEasing.

End Screen.

(* ================================================================= *)
(** * The card grid: [Cards] and [Card] *)
(* ================================================================= *)

Module Cards.

Local Open Scope string_scope.

(** The atoms read by [Card]:
    [[
    const bikeAtom = atom(false);
    const milkAtom = atom(false);
    const teddybearAtom = atom(false);
    const ballAtom = atom(false);
    ]]
    and [themeSwitchAtom], imported from the application module. *)
Inductive Atom : Type :=
| bikeAtom | milkAtom | teddybearAtom | ballAtom | themeSwitchAtom.

Definition atom_eqb (a b : Atom) : bool :=
  match a, b with
  | bikeAtom, bikeAtom | milkAtom, milkAtom | teddybearAtom, teddybearAtom
  | ballAtom, ballAtom | themeSwitchAtom, themeSwitchAtom => true
  | _, _ => false
  end.

(** The atom store: the value each atom holds. *)
Definition Store := Atom -> bool.


(** Setting a primitive atom. *)
Definition set (s : Store) (a : Atom) (v : bool) : Store :=
  fun b => if atom_eqb a b then v else s b.

(** [onPress={() => setIsLiked(!isLiked)}]: the setter of the card's atom
    applied to a value fixed when the card was rendered. *)
Inductive CardHandler : Type := setIsLiked (cardAtom : Atom) (v : bool).

Inductive Icon : Type :=
| HeartDuotoneIcon (color : string) (entering : option string)
    (** inside [Animated.View], with its [entering] animation *)
| HeartIcon (color : string).

(** What [Card] renders: the image, the press handler and the icon. *)
Record CardView : Type := {
  source : string;
  onPress : CardHandler;
  icon : Icon
}.

(** [[
    function Card({ image, cardAtom }) {
      const [isThemeSwitching] = useAtom(themeSwitchAtom);
      const [isLiked, setIsLiked] = useAtom(cardAtom);
      return ( ... <Pressable onPress={() => setIsLiked(!isLiked)}> ...
        {isLiked ? (
          <Animated.View entering={isThemeSwitching ? null : bounceIn}>
            <HeartDuotoneIcon color="#67e8f9" />
          </Animated.View>
        ) : (
          <HeartIcon color="#f1f5f9" />
        )} ... );
    }
    ]] *)
Definition Card (image : string) (cardAtom : Atom) (store : Store)
  : CardView :=
  let isThemeSwitching := store themeSwitchAtom in
  let isLiked := store cardAtom in
  {| source := image;
     onPress := setIsLiked cardAtom (negb isLiked);
     icon := if isLiked
             then HeartDuotoneIcon "#67e8f9"
                    (if isThemeSwitching then None else Some "bounceIn")
             else HeartIcon "#f1f5f9" |}.

(** [[
    export function Cards() {
      return (
        <View style={styles.container}>
          <Card image={require("../images/bike.jpg")} cardAtom={bikeAtom} />
          <Card image={require("../images/milk.jpg")} cardAtom={milkAtom} />
          <Card image={require("../images/teddybear.jpg")} cardAtom={teddybearAtom} />
          <Card image={require("../images/ball.jpg")} cardAtom={ballAtom} />
        </View>
      );
    }
    ]] *)
Definition card_props : list (string * Atom) :=
  [("../images/bike.jpg", bikeAtom);
   ("../images/milk.jpg", milkAtom);
   ("../images/teddybear.jpg", teddybearAtom);
   ("../images/ball.jpg", ballAtom)].

Definition Cards (store : Store) : list CardView :=
  map (fun p => Card (fst p) (snd p) store) card_props.




End Cards.

(* ================================================================= *)
(** * The curtain: the shader applied to the two snapshots *)
(* ================================================================= *)

Module Curtain.

Import Screen.

(** The colour a [Shader] element gives the pixel [xy].  The element runs
    the program of [transition(directionalwrap)]; its children are bound,
    in order, to the [uniform shader] declarations [image1] and [image2],
    and [uniforms] gives [progress] and [resolution].  [texture] is the
    image shader of a bitmap. *)
Definition shade {Effect : Type} (texture : option SkImage -> Glsl.shader)
  (e : Element Effect) (xy : Glsl.vec2) : option Glsl.vec4 :=
  match e with
  | Shader _ u [ImageShader _ im1 _ _ _; ImageShader _ im2 _ _ _] =>
      Some (Glsl.main (texture im1) (texture im2)
              (Q2R (u_progress u))
              (Glsl.Vec2 (Q2R (fst (u_resolution u)))
                         (Q2R (snd (u_resolution u))))
              xy)
  | _ => None
  end.

End Curtain.

(* ================================================================= *)
(** * Concrete runs *)
(* ================================================================= *)

(** Inputs on which the properties are exercised. *)

Module Examples.

Import Screen.
Local Open Scope Z_scope.

(** A linear easing curve. *)
Definition linear (t : Q) : Q := t.

(** A compiler that accepts every source, and one that accepts none. *)
Definition compiles (code : string) : option unit := Some tt.
Definition fails (code : string) : option unit := None.

Definition no_numbers (n : float) : string := EmptyString.

(** Two captures. *)
Definition before_change : SkImage := Bitmap 1.
Definition after_change : SkImage := Bitmap 2.

(** The component mounted under the light scheme. *)
Definition at_rest : Runtime := mounted light 0.

(** A toggle up to its first capture, and up to its second capture. *)
Definition first_events : list Event := capture_first 0 before_change.

Definition second_events : list Event :=
  first_events ++ capture_second 0 after_change.

Definition frozen : Runtime :=
  Eval vm_compute in
    match run linear first_events at_rest with
    | Some w => w
    | None => at_rest
    end.

Definition wiping : Runtime :=
  Eval vm_compute in
    match run linear second_events at_rest with
    | Some w => w
    | None => at_rest
    end.

(** A texture of one colour per bitmap. *)
Definition flat (image : option SkImage) : Glsl.shader :=
  fun _ =>
    match image with
    | Some (Bitmap 1) => Glsl.Vec4 0 0 0 1
    | _ => Glsl.Vec4 1 1 1 1
    end.

(** A window of 390 by 844 points. *)
Definition window_width : Q := 390.
Definition window_height : Q := 844.

End Examples.

(* ================================================================= *)
(** * Further notions: inputs and event sequences *)
(* ================================================================= *)

Module Inputs.

Import Template.
Local Open Scope R_scope.

(** A value that is a string ([typeof v === "string"]). *)
Definition is_string (v : Value) : bool :=
  match v with Str _ => true | Num _ => false end.

(** A child shader of one colour, and a grey of a given level. *)
Definition solid (c : Glsl.vec4) : Glsl.shader := fun _ => c.

Definition grey (level : R) : Glsl.vec4 := Glsl.Vec4 level level level level.

(** A point of the window of size [resolution], borders included. *)
Definition in_window (resolution p : Glsl.vec2) : Prop :=
  0 <= Glsl.x p <= Glsl.x resolution /\ 0 <= Glsl.y p <= Glsl.y resolution.


(** An easing curve that keeps the unit interval. *)
Definition keeps_unit_interval (easing : Q -> Q) : Prop :=
  forall t : Q, (0 <= t)%Q -> (t <= 1)%Q ->
                (0 <= easing t)%Q /\ (easing t <= 1)%Q.

End Inputs.

Module Scenarios.

Import Screen.
Local Open Scope Z_scope.

(** One whole toggle: the press and both captures, the animation and the
    calls of its callback. *)
Definition toggle (n : nat) (b1 b2 : SkImage) : list Event :=
  capture_first n b1 ++ capture_second n b2 ++ completion n.

(** Two presses before the first capture is there, then both captures. *)
Definition double_press (n : nat) (b1 b2 : SkImage) : list Event :=
  [press; press; capture_fulfilled n b1; capture_fulfilled n b2].



(** The background colour of the content view under a scheme:
    [colorScheme === "light" ? { backgroundColor: "white" }
                             : { backgroundColor: "#020617" }]. *)
Definition content_background (scheme : ColorSchemeName) : string :=
  if scheme_eqb scheme light then "white" else "#020617".

(** The colour keyword [white] written as a hex colour. *)
Definition hex (c : string) : string :=
  if String.eqb c "white" then "#ffffff" else c.

(** The calls handed over by the callback of the animation that an
    assignment to [progress] cancels, if one is running. *)
Definition cancelled_calls (w : Runtime) : list Task :=
  match animation (progress (app w)) with
  | Some _ => [runOnJS_setFirstSnapshot None; runOnJS_setSecondSnapshot None]
  | None => []
  end.

Definition is_listener_call (a : Action) : bool :=
  match a with listener_called _ => true | _ => false end.

(** A waiting timeout is due within 100 ms of the current time. *)
Definition due_soon (now : Z) (t : Task) : Prop :=
  match t with
  | timeout_scheduled due _ => due <= now + 100
  | _ => True
  end.

(** An animation is the one the source starts:
    [withTiming(1, { duration: 1700 }, ...)]. *)
Definition is_curtain_timing (a : Animation) : Prop :=
  toValue a = 1%Q /\ duration a = 1700 /\ callback a = clearSnapshots.

End Scenarios.

(* ================================================================= *)
(** * Properties of the tagged templates *)
(* ================================================================= *)

Module TemplateFacts.

Import Template.
Local Open Scope string_scope.

Lemma append_empty_r (s : string) : s ++ "" = s.
Proof.
  induction s as [|c s IH]; simpl; [reflexivity | now rewrite IH].
Qed.

Lemma skipn_nth_error_none {A : Type} (l : list A) (i : nat) :
  nth_error l i = None -> skipn i l = [] /\ skipn (S i) l = [].
Proof.
  revert i; induction l as [|a l IH]; intros [|i] H; simpl in *;
    try discriminate; auto.
Qed.

Lemma skipn_nth_error_some {A : Type} (l : list A) (i : nat) (v : A) :
  nth_error l i = Some v -> skipn i l = v :: skipn (S i) l.
Proof.
  revert i; induction l as [|a l IH]; intros [|i] H; simpl in *;
    try discriminate.
  - now inversion H.
  - now apply IH.
Qed.

Section WithNumberToString.

Variable NumberToString : float -> string.

Local Abbreviation glsl := (glsl NumberToString).
Local Abbreviation glsl_spec := (glsl_spec NumberToString).
Local Abbreviation join := (join NumberToString).
Local Abbreviation render_value := (render_value NumberToString).

(** Joining with the empty separator is plain concatenation. *)
Lemma join_empty_sep (l : list Value) :
  join "" (map Some l) = concat_all (map render_value l).
Proof.
  induction l as [|v l IH]; [reflexivity|].
  cbn [map concat_all]. rewrite <- IH.
  destruct l as [|v' l]; cbn [map Template.join].
  - now rewrite append_empty_r.
  - reflexivity.
Qed.

(** What [flatMap] and [filter(Boolean)] leave, in terms of the
    interleaving of the segments with the values from index [i] on. *)
Lemma filter_flatMap_from (values : Values) (source : list string) (i : nat) :
  filter Boolean
    (flatMap_from (fun s j => [Some (Str s); index values j]) i source)
  = map Some
      (filter (fun v => negb (falsy v)) (interleave source (skipn i values))).
Proof.
  revert i; induction source as [|s source IH]; intro i; [reflexivity|].
  cbn [flatMap_from app interleave]. unfold index at 1.
  destruct (nth_error values i) as [v|] eqn:Hv.
  - rewrite (skipn_nth_error_some _ _ _ Hv).
    cbn [filter]. rewrite IH. unfold falsy. rewrite !negb_involutive.
    destruct (Boolean (Some (Str s))), (Boolean (Some v)); reflexivity.
  - destruct (skipn_nth_error_none _ _ Hv) as [H0 H1].
    rewrite H0. cbn [filter]. rewrite IH, H1. unfold falsy.
    rewrite !negb_involutive.
    destruct source; destruct (Boolean (Some (Str s))); reflexivity.
Qed.

Lemma glsl_is_glsl_spec (source : TemplateStringsArray) (values : Values) :
  glsl source values = glsl_spec source values.
Proof.
  unfold Template.glsl, Template.glsl_spec, flatMap.
  rewrite filter_flatMap_from. cbn [skipn]. apply join_empty_sep.
Qed.

End WithNumberToString.

End TemplateFacts.

Module TemplateClaims.

Import Template TemplateFacts.
Local Open Scope string_scope.

Lemma filter_segment (NumberToString : float -> string) (s : string) :
  concat_all
    (map (render_value NumberToString)
       (if negb (falsy (Str s)) then [Str s] else [])) = s.
Proof.
  unfold falsy, Boolean. rewrite negb_involutive.
  destruct (String.eqb_spec s "") as [->|_]; cbn; [reflexivity|].
  apply append_empty_r.
Qed.

(** C8.  For every invocation, [glsl] returns the concatenation of the
    template's segments interleaved with the interpolated values, every
    falsy element dropped ([filter(Boolean)]): the falsy values are the
    empty string and the numbers [0] and [NaN]; a value [0] or [""]
    between two segments leaves the two segments only, and a truthy value
    appears between them. *)
Theorem glsl_concatenates_dropping_falsy :
  forall (NumberToString : float -> string)
         (source : TemplateStringsArray) (values : Values),
    glsl NumberToString source values
    = glsl_spec NumberToString source values
    /\ (forall v : Value,
          falsy v = true <->
          v = Str ""
          \/ exists n, v = Num n
                       /\ (PrimFloat.eqb n 0%float = true
                           \/ PrimFloat.is_nan n = true))
    /\ (forall a b : string,
          glsl NumberToString [a; b] [Num 0%float] = a ++ b)
    /\ (forall a b : string, glsl NumberToString [a; b] [Str ""] = a ++ b)
    /\ (forall (a b : string) (v : Value),
          falsy v = false ->
          glsl NumberToString [a; b] [v]
          = a ++ render_value NumberToString v ++ b).
Proof.
  intros N source values. split; [apply glsl_is_glsl_spec|].
  split.
  { intro v. unfold falsy, Boolean.
    destruct v as [s|n]; rewrite !negb_involutive.
    - destruct (String.eqb_spec s "") as [->|Hs]; split; intro H;
        auto; try discriminate.
      destruct H as [H|[n [H _]]]; [inversion H; contradiction|discriminate].
    - rewrite orb_true_iff. split.
      + intro H. right. exists n. now split.
      + intros [H|[n' [H H']]]; [discriminate|]. now inversion H. }
  assert (two : forall (a b : string) (mid : list Value),
             concat_all
               (map (render_value N)
                  ((if negb (falsy (Str a)) then [Str a] else [])
                   ++ mid
                   ++ (if negb (falsy (Str b)) then [Str b] else [])))
             = a ++ concat_all (map (render_value N) mid) ++ b).
  { intros a b mid.
    rewrite !map_app.
    assert (cat : forall l1 l2,
               concat_all (l1 ++ l2) = concat_all l1 ++ concat_all l2).
    { induction l1 as [|h l1 IH]; intro l2; cbn; [reflexivity|].
      rewrite IH. induction h as [|c h IHh]; cbn; [reflexivity|].
      now rewrite IHh. }
    rewrite !cat. now rewrite !filter_segment. }
  split; [|split].
  - intros a b. rewrite glsl_is_glsl_spec. unfold glsl_spec.
    cbn [interleave filter].
    change (falsy (Num 0%float)) with true. cbn [negb].
    specialize (two a b []). revert two.
    destruct (negb (falsy (Str a))), (negb (falsy (Str b))); exact (fun H => H).
  - intros a b. rewrite glsl_is_glsl_spec. unfold glsl_spec.
    cbn [interleave filter].
    change (falsy (Str "")) with true. cbn [negb].
    specialize (two a b []). revert two.
    destruct (negb (falsy (Str a))), (negb (falsy (Str b))); exact (fun H => H).
  - intros a b v Hv. rewrite glsl_is_glsl_spec. unfold glsl_spec.
    cbn [interleave filter]. rewrite Hv. cbn [negb].
    specialize (two a b [v]). cbn [map concat_all] in two.
    rewrite append_empty_r in two. revert two.
    destruct (negb (falsy (Str a))), (negb (falsy (Str b))); exact (fun H => H).
Qed.

End TemplateClaims.

(* ================================================================= *)
(** * Properties of the wipe shader *)
(* ================================================================= *)

Module GlslFacts.

Import Glsl.
Local Open Scope R_scope.

Lemma sqrt2_pos : 0 < sqrt 2.
Proof. apply sqrt_lt_R0; lra. Qed.

Lemma length_direction : length direction = sqrt 2.
Proof.
  unfold length, direction; cbn [x y]. f_equal. lra.
Qed.

(** [normalize(direction)] rescaled by the sum of the absolute values of
    its components: the direction of the wipe, of 1-norm one. *)
Lemma rescaled_direction :
  let v := normalize direction in
  vdivs v (Rabs (x v) + Rabs (y v)) = Vec2 (- (1 / 2)) (1 / 2).
Proof.
  cbv zeta. unfold normalize. rewrite length_direction.
  unfold vdivs, direction; cbn [x y].
  pose proof sqrt2_pos as Hs.
  assert (Hn : Rabs (-1 / sqrt 2) = 1 / sqrt 2).
  { replace (-1 / sqrt 2) with (- (1 / sqrt 2)) by (field; lra).
    rewrite Rabs_Ropp. apply Rabs_pos_eq.
    apply Rlt_le, Rdiv_lt_0_compat; lra. }
  assert (Hp : Rabs (1 / sqrt 2) = 1 / sqrt 2).
  { apply Rabs_pos_eq. apply Rlt_le, Rdiv_lt_0_compat; lra. }
  rewrite Hn, Hp. f_equal; field; lra.
Qed.

Lemma clamp_bounds (v : R) : 0 <= clamp v 0 1 <= 1.
Proof.
  unfold clamp, Rmin, Rmax.
  destruct (Rle_dec v 0); destruct (Rle_dec _ 1); lra.
Qed.

Lemma smoothstep_bounds (edge0 edge1 v : R) :
  0 <= smoothstep edge0 edge1 v <= 1.
Proof.
  unfold smoothstep. cbv zeta.
  pose proof (clamp_bounds ((v - edge0) / (edge1 - edge0))) as [H0 H1].
  set (t := clamp _ 0 1) in *. split.
  - assert (0 <= t * t) by nra. nra.
  - assert (0 <= (1 - t) * (1 - t)) by nra.
    assert (0 <= t * ((1 - t) * (1 - t))) by (apply Rmult_le_pos; lra).
    nra.
Qed.

Lemma smoothstep_low (edge0 edge1 v : R) :
  edge0 < edge1 -> v <= edge0 -> smoothstep edge0 edge1 v = 0.
Proof.
  intros He Hv. unfold smoothstep. cbv zeta.
  assert (Hq : (v - edge0) / (edge1 - edge0) <= 0).
  { unfold Rdiv. assert (0 < / (edge1 - edge0)) by (apply Rinv_0_lt_compat; lra).
    nra. }
  unfold clamp, Rmin, Rmax.
  destruct (Rle_dec _ 0); [|lra]. destruct (Rle_dec 0 1); lra.
Qed.

Lemma smoothstep_high (edge0 edge1 v : R) :
  edge0 < edge1 -> edge1 <= v -> smoothstep edge0 edge1 v = 1.
Proof.
  intros He Hv. unfold smoothstep. cbv zeta.
  assert (Hq : 1 <= (v - edge0) / (edge1 - edge0)).
  { apply Rle_trans with ((edge1 - edge0) / (edge1 - edge0)).
    - right. field. lra.
    - unfold Rdiv. apply Rmult_le_compat_r; [|lra].
      apply Rlt_le, Rinv_0_lt_compat; lra. }
  unfold clamp, Rmin, Rmax.
  destruct (Rle_dec _ 0); [lra|]. destruct (Rle_dec _ 1) as [Hle|]; [|lra].
  assert (E : (v - edge0) / (edge1 - edge0) = 1) by lra.
  rewrite E. lra.
Qed.

(** The local [m] of [transition] is the wipe mask in closed form. *)
Lemma transition_mask (image1 image2 : shader) (progress : R)
  (resolution uv : vec2) :
  transition image1 image2 progress resolution uv
  = let m := wipe_mask progress uv in
    mix (image1 (vmul (vadds (vscale (vsubs uv (1 / 2)) (1 - m)) (1 / 2))
                   resolution))
        (image2 (vmul (vadds (vscale (vsubs uv (1 / 2)) m) (1 / 2))
                   resolution))
        m.
Proof.
  unfold transition. cbv zeta.
  pose proof rescaled_direction as Hv. cbv zeta in Hv. rewrite Hv.
  unfold getFromColor, getToColor, wipe_mask, smoothness, center.
  cbn [x y].
  replace (5 / 10) with (1 / 2) by lra.
  replace (- (1 / 2) * x uv + 1 / 2 * y uv
           - (- (1 / 2) * (1 / 2) + 1 / 2 * (1 / 2) - 1 / 2
              + progress * (1 + 1 / 2)))
    with ((y uv - x uv) / 2 + 1 / 2 - progress * (3 / 2)) by lra.
  reflexivity.
Qed.

Lemma wipe_mask_bounds (progress : R) (uv : vec2) :
  0 <= wipe_mask progress uv <= 1.
Proof.
  unfold wipe_mask.
  pose proof (smoothstep_bounds (- (1 / 2)) 0
                ((y uv - x uv) / 2 + 1 / 2 - progress * (3 / 2))).
  lra.
Qed.

(** At progress [0] the mask is [0] on the whole screen, at progress [1]
    it is [1]: the wipe starts on the first image and ends on the second. *)
Lemma wipe_mask_start (uv : vec2) :
  0 <= x uv <= 1 -> 0 <= y uv <= 1 -> wipe_mask 0 uv = 0.
Proof.
  intros Hx Hy. unfold wipe_mask.
  rewrite smoothstep_high; lra.
Qed.

Lemma wipe_mask_end (uv : vec2) :
  0 <= x uv <= 1 -> 0 <= y uv <= 1 -> wipe_mask 1 uv = 1.
Proof.
  intros Hx Hy. unfold wipe_mask.
  rewrite smoothstep_low; lra.
Qed.

End GlslFacts.

(* ================================================================= *)
(** * Properties of the screen component *)
(* ================================================================= *)

Module ScreenFacts.

Import Template Screen.
Local Open Scope Z_scope.

(** ** Lists of waiting tasks *)

Lemma nth_error_last {A : Type} (l : list A) (t : A) :
  nth_error (l ++ [t]) (List.length l) = Some t.
Proof.
  rewrite nth_error_app2 by lia. now rewrite Nat.sub_diag.
Qed.

Lemma remove_nth_last {A : Type} (l : list A) (t : A) :
  remove_nth (List.length l) (l ++ [t]) = l.
Proof.
  unfold remove_nth.
  rewrite firstn_app, Nat.sub_diag, firstn_all. cbn [firstn].
  rewrite skipn_all2 by (rewrite length_app; cbn; lia).
  now rewrite !app_nil_r.
Qed.

Lemma remove_nth_split {A : Type} (l : list A) (i : nat) (t : A) :
  nth_error l i = Some t ->
  exists l1 l2, l = l1 ++ t :: l2 /\ remove_nth i l = l1 ++ l2.
Proof.
  intro H. destruct (nth_error_split l i H) as [l1 [l2 [-> Hl]]].
  exists l1, l2. split; [reflexivity|].
  unfold remove_nth. subst i.
  rewrite firstn_app, Nat.sub_diag, firstn_all. cbn [firstn].
  rewrite app_nil_r.
  change (S (List.length l1)) with (1 + List.length l1)%nat.
  rewrite <- skipn_skipn.
  rewrite skipn_app, Nat.sub_diag, skipn_all. reflexivity.
Qed.

Lemma Forall_remove_nth {A : Type} (P : A -> Prop) (l : list A) (i : nat) :
  Forall P l -> Forall P (remove_nth i l).
Proof.
  intro H. rewrite Forall_forall in *. intros t Ht. apply H.
  revert i Ht. unfold remove_nth.
  induction l as [|a l IH]; intros [|i] Ht; cbn in *; auto.
  - destruct Ht as [Ht|Ht]; [now left|right].
    apply (IH (fun u Hu => H u (or_intror Hu)) i Ht).
Qed.

Lemma In_remove_nth_other {A : Type} (l : list A) (i : nat) (t u : A) :
  nth_error l i = Some u -> u <> t -> In t l -> In t (remove_nth i l).
Proof.
  intros Hn Hne Hin.
  destruct (remove_nth_split l i _ Hn) as [l1 [l2 [-> ->]]].
  apply in_app_or in Hin. apply in_or_app.
  destruct Hin as [H|[H|H]]; auto. contradiction.
Qed.


Section WithEasing.

Variable easing : Q -> Q.

Local Abbreviation step := (Screen.step easing).
Local Abbreviation run := (Screen.run easing).
Local Abbreviation reachable := (Screen.reachable easing).

(** ** Runs *)

Lemma run_app (es1 es2 : list Event) (w : Runtime) :
  run (es1 ++ es2) w
  = match run es1 w with
    | Some w' => run es2 w'
    | None => None
    end.
Proof.
  revert w; induction es1 as [|e es1 IH]; intro w; cbn; [reflexivity|].
  destruct (step e w); [apply IH | reflexivity].
Qed.

Lemma reachable_mounted (scheme : ColorSchemeName) (t0 : Z) :
  reachable (mounted scheme t0).
Proof. exists scheme, t0, []. reflexivity. Qed.

Lemma reachable_step (e : Event) (w w' : Runtime) :
  reachable w -> step e w = Some w' -> reachable w'.
Proof.
  intros [scheme [t0 [es H]]] Hs. exists scheme, t0, (es ++ [e]).
  rewrite run_app, H. cbn. now rewrite Hs.
Qed.

Lemma reachable_run (es : list Event) (w w' : Runtime) :
  reachable w -> run es w = Some w' -> reachable w'.
Proof.
  revert w; induction es as [|e es IH]; intros w Hw H; cbn in H.
  - now inversion H; subst.
  - destruct (Screen.step easing e w) as [w1|] eqn:Hs; [|discriminate].
    eapply IH; [|exact H]. eapply reachable_step; eauto.
Qed.

(** Induction over the reachable states. *)
Lemma reachable_ind (P : Runtime -> Prop) :
  (forall scheme t0, P (mounted scheme t0)) ->
  (forall e w w', reachable w -> P w -> step e w = Some w' -> P w') ->
  forall w, reachable w -> P w.
Proof.
  intros Hinit Hstep w [scheme [t0 [es H]]].
  revert w H. induction es as [|e es IH] using rev_ind; intros w H.
  - cbn in H. inversion H. apply Hinit.
  - rewrite run_app in H.
    destruct (Screen.run easing es (mounted scheme t0)) as [w0|] eqn:H0;
      [|discriminate].
    cbn in H. destruct (Screen.step easing e w0) as [w1|] eqn:Hs;
      [|discriminate].
    inversion H; subst w1.
    apply (Hstep e w0 w); auto. exists scheme, t0, es. exact H0.
Qed.


(** ** Running a handler symbolically *)

Local Arguments remove_nth : simpl never.

Ltac unfold_handlers :=
  unfold exec, changeTheme, changeTheme_resume, timeout_callback,
    timeout_resume, finish_animation, appearance_changed,
    Appearance_setColorScheme, listener, assign_progress,
    assign_progress_withTiming, cancel_animation, run_callback, runOnJS,
    setFirstSnapshot, setSecondSnapshot, dequeue, advance, enqueue, record,
    modify_app, gets, bind, ret in *.

(** Case analysis on an enabled event: one goal per way [step] can give a
    state. *)
Ltac step_cases H :=
  match type of H with Screen.step _ ?e _ = _ => destruct e end;
  unfold Screen.step in H;
  repeat match type of H with
    | context [match nth_error ?l ?i with _ => _ end] =>
        let Hn := fresh "Hn" in
        destruct (nth_error l i) as [[]|] eqn:Hn; try discriminate H
    | context [match animation ?v with _ => _ end] =>
        let Ha := fresh "Ha" in
        destruct (animation v) eqn:Ha; try discriminate H
    | context [if ?b then _ else _] =>
        let Hb := fresh "Hb" in
        destruct b eqn:Hb; try discriminate H
    end;
  inversion H; subst; clear H.

Ltac exec_handler :=
  unfold_handlers; cbn;
  repeat match goal with
    | |- context [match animation ?v with _ => _ end] =>
        let Ha := fresh "Ha" in destruct (animation v) eqn:Ha; cbn
    | |- context [match callback ?a with _ => _ end] =>
        destruct (callback a); cbn
    | |- context [if scheme_eqb ?a ?b then _ else _] =>
        let Hs := fresh "Hs" in destruct (scheme_eqb a b) eqn:Hs; cbn
    end.

(** ** Invariants of the reachable states *)

Lemma passes_null_step (e : Event) (w w' : Runtime) :
  Forall passes_null (pending w) -> step e w = Some w' ->
  Forall passes_null (pending w').
Proof.
  intros Hinv H. step_cases H; exec_handler;
    repeat first [ assumption
                 | apply Forall_remove_nth
                 | apply Forall_app; split
                 | constructor ];
    exact I || reflexivity.
Qed.

Lemma passes_null_reachable (w : Runtime) :
  reachable w -> Forall passes_null (pending w).
Proof.
  apply reachable_ind with (P := fun w => Forall passes_null (pending w)).
  - intros; constructor.
  - intros e w0 w1 _ H Hs. eapply passes_null_step; eauto.
Qed.


Lemma passes_null_nth (l : list Task) (i : nat) (t : Task) :
  Forall passes_null l -> nth_error l i = Some t -> passes_null t.
Proof.
  intros H Hn. rewrite Forall_forall in H. apply H.
  eapply nth_error_In; eauto.
Qed.

(** A task is still waiting after other tasks were added or removed. *)
Ltac in_pending :=
  match goal with
  | H : In ?t ?l |- In ?t ?l => exact H
  | |- In ?t (_ ++ [?t]) => apply in_or_app; right; left; reflexivity
  | |- In _ (_ ++ _) => apply in_or_app; left; in_pending
  | |- In _ (remove_nth _ _) =>
      eapply In_remove_nth_other; [eassumption | discriminate | in_pending]
  end.

Lemma completion_ahead_step (e : Event) (w w' : Runtime) :
  Forall passes_null (pending w) ->
  (secondSnapshot (app w) <> None -> completion_ahead w) ->
  step e w = Some w' ->
  secondSnapshot (app w') <> None -> completion_ahead w'.
Proof.
  intros Hnull Hinv H. unfold completion_ahead in *.
  step_cases H; exec_handler; intro Hsecond;
    try (left; discriminate);
    try (right; in_pending);
    try (specialize (Hinv Hsecond);
         destruct Hinv as [Hanim|Hin];
         [ try (left; assumption); try congruence
         | right; in_pending ]).
  pose proof (passes_null_nth _ _ _ Hnull Hn) as Hv. cbn in Hv. congruence.
Qed.

Lemma completion_ahead_reachable (w : Runtime) :
  reachable w -> secondSnapshot (app w) <> None -> completion_ahead w.
Proof.
  intro Hw. pattern w. revert w Hw. apply reachable_ind.
  - intros scheme t0 H. now cbn in H.
  - intros e w0 w1 Hr H Hs. eapply completion_ahead_step; eauto.
    now apply passes_null_reachable.
Qed.






(** ** What changes a snapshot reference *)




(** ** Completing a transition *)

Lemma phase_transitioning (a : App) :
  phase a = in_transition <->
  firstSnapshot a <> None /\ secondSnapshot a <> None.
Proof.
  unfold phase, transitioning.
  destruct (firstSnapshot a), (secondSnapshot a); cbn; split; intro H;
    try discriminate; try reflexivity;
    try (split; discriminate); destruct H; congruence.
Qed.

Lemma phase_idle_second_null (a : App) :
  secondSnapshot a = None -> phase a = idle.
Proof.
  intro H. unfold phase, transitioning. rewrite H.
  now destruct (firstSnapshot a).
Qed.

(** A waiting clearing call of the second snapshot can run, and leaves
    the second snapshot [null]. *)
Lemma js_call_clears_second (w : Runtime) (i : nat) :
  nth_error (pending w) i = Some (runOnJS_setSecondSnapshot None) ->
  exists w', step (js_call i) w = Some w'
             /\ secondSnapshot (app w') = None.
Proof.
  intro Hn. unfold Screen.step. rewrite Hn. eexists. split; [reflexivity|].
  reflexivity.
Qed.

(** The running animation ends once its duration has passed, and its
    callback hands over the two clearing calls. *)
Lemma animation_ends_enqueues (w : Runtime) (a : Animation) :
  animation (progress (app w)) = Some a ->
  startTime a + duration a <= clock w ->
  exists w', step animation_ends w = Some w'
             /\ pending w'
                = (pending w ++ [runOnJS_setFirstSnapshot None])
                  ++ [runOnJS_setSecondSnapshot None]
             /\ app w'
                = with_progress {| stored := toValue a; animation := None |}
                    (app w)
             /\ clock w' = clock w
             /\ trace w' = trace w ++ [callback_called true].
Proof.
  intros Ha Hdue. unfold Screen.step. rewrite Ha.
  apply Z.leb_le in Hdue. rewrite Hdue.
  eexists. split; [reflexivity|].
  unfold_handlers. cbn. destruct (callback a). repeat split.
Qed.

Lemma completion_run (w : Runtime) :
  completion_ahead w ->
  exists es w',
    Forall (fun e => completes e = true) es
    /\ run es w = Some w'
    /\ secondSnapshot (app w') = None.
Proof.
  intros [Hanim|Hin].
  - destruct (animation (progress (app w))) as [a|] eqn:Ha; [|congruence].
    clear Hanim.
    set (d := Z.max 0 (startTime a + duration a - clock w)).
    set (w1 := exec (advance d) w).
    assert (Ht : step (tick d) w = Some w1).
    { unfold Screen.step.
      assert ((0 <=? d) = true) as -> by (apply Z.leb_le; lia).
      reflexivity. }
    destruct (animation_ends_enqueues w1 a) as [w2 [Hs2 [Hp2 _]]].
    { exact Ha. }
    { unfold w1; cbn. lia. }
    destruct (js_call_clears_second w2 (S (List.length (pending w))))
      as [w3 [Hs3 Hnull]].
    { rewrite Hp2. change (pending w1) with (pending w).
      rewrite nth_error_app2 by (rewrite length_app; cbn; lia).
      rewrite length_app. cbn [List.length].
      replace (S (List.length (pending w)) - (List.length (pending w) + 1))%nat
        with 0%nat by lia.
      reflexivity. }
    exists [tick d; animation_ends; js_call (S (List.length (pending w)))], w3.
    split; [repeat constructor|]. split; [|exact Hnull].
    cbn [Screen.run]. rewrite Ht, Hs2, Hs3. reflexivity.
  - destruct (In_nth_error _ _ Hin) as [i Hn].
    destruct (js_call_clears_second w i Hn) as [w' [Hs Hnull]].
    exists [js_call i], w'. split; [repeat constructor|].
    split; [|exact Hnull]. cbn [Screen.run]. now rewrite Hs.
Qed.


(** ** The steps of one toggle *)

Lemma toggled_differs (scheme : ColorSchemeName) :
  scheme_eqb scheme (toggled scheme) = false.
Proof. now destruct scheme. Qed.

Lemma press_step (w : Runtime) :
  transitioning (app w) = false ->
  exists w1 base calls,
    step press w = Some w1
    /\ pending w1 = base ++ [changeTheme_awaiting (colorScheme (app w))]
    /\ List.length base = slot w
    /\ app w1 = with_progress {| stored := 0; animation := None |} (app w)
    /\ clock w1 = clock w
    /\ trace w1
       = (trace w ++ progress_assigned 0 :: calls)
         ++ [makeImageFromView_called]
    /\ (calls = [] \/ calls = [callback_called false]).
Proof.
  intro Ht. unfold Screen.step, slot. rewrite Ht.
  eexists. destruct (animation (progress (app w))) as [a|] eqn:Ha.
  - exists ((pending w ++ [runOnJS_setFirstSnapshot None])
            ++ [runOnJS_setSecondSnapshot None]), [callback_called false].
    split; [reflexivity|].
    unfold_handlers. cbn. rewrite Ha. destruct (callback a). cbn.
    repeat split; rewrite <- ?app_assoc; auto;
      rewrite !length_app; cbn; lia.
  - exists (pending w), [].
    split; [reflexivity|].
    unfold_handlers. cbn. rewrite Ha. cbn.
    repeat split; rewrite <- ?app_assoc; auto; lia.
Qed.

Lemma first_capture_step (w : Runtime) (base : list Task)
  (image : SkImage) :
  pending w = base ++ [changeTheme_awaiting (colorScheme (app w))] ->
  exists w2,
    step (capture_fulfilled (List.length base) image) w = Some w2
    /\ pending w2
       = base ++ [timeout_scheduled (clock w + 100)
                    (toggled (colorScheme (app w)))]
    /\ app w2
       = with_colorScheme (toggled (colorScheme (app w)))
           (with_firstSnapshot (Some image) (app w))
    /\ clock w2 = clock w
    /\ trace w2
       = trace w
         ++ [setFirstSnapshot_called (Some image);
             setColorScheme_called (toggled (colorScheme (app w)));
             listener_called (toggled (colorScheme (app w)))].
Proof.
  intro Hp. unfold Screen.step. rewrite Hp, nth_error_last.
  eexists. split; [reflexivity|].
  unfold_handlers. cbn. rewrite toggled_differs. cbn.
  rewrite Hp, remove_nth_last, <- !app_assoc. repeat split.
Qed.

Lemma tick_step (w : Runtime) (dt : Z) :
  0 <= dt ->
  exists w', step (tick dt) w = Some w'
             /\ app w' = app w /\ pending w' = pending w
             /\ trace w' = trace w /\ clock w' = clock w + dt.
Proof.
  intro H. unfold Screen.step. apply Z.leb_le in H. rewrite H.
  eexists. repeat split.
Qed.

Lemma timeout_step (w : Runtime) (base : list Task) (due : Z)
  (scheme : ColorSchemeName) :
  pending w = base ++ [timeout_scheduled due scheme] ->
  due <= clock w ->
  exists w', step (timeout_fires (List.length base)) w = Some w'
             /\ pending w' = base ++ [timeout_awaiting scheme]
             /\ app w' = app w /\ clock w' = clock w
             /\ trace w'
                = trace w ++ [console_log scheme; makeImageFromView_called].
Proof.
  intros Hp Hdue. unfold Screen.step. rewrite Hp, nth_error_last.
  apply Z.leb_le in Hdue. rewrite Hdue.
  eexists. split; [reflexivity|].
  unfold_handlers. cbn. rewrite Hp, remove_nth_last, <- !app_assoc.
  repeat split.
Qed.

Lemma second_capture_step (w : Runtime) (base : list Task)
  (scheme : ColorSchemeName) (image : SkImage) :
  pending w = base ++ [timeout_awaiting scheme] ->
  animation (progress (app w)) = None ->
  exists w',
    step (capture_fulfilled (List.length base) image) w = Some w'
    /\ pending w' = base
    /\ app w'
       = with_progress
           {| stored := stored (progress (app w));
              animation :=
                Some {| toValue := 1; duration := 1700;
                        callback := clearSnapshots;
                        startValue := stored (progress (app w));
                        startTime := clock w |} |}
           (with_colorSchemeSv scheme
              (with_secondSnapshot (Some image) (app w)))
    /\ clock w' = clock w
    /\ trace w'
       = trace w
         ++ [setSecondSnapshot_called (Some image);
             colorSchemeSv_assigned scheme;
             withTiming_started 1 1700].
Proof.
  intros Hp Ha. unfold Screen.step. rewrite Hp, nth_error_last.
  eexists. split; [reflexivity|].
  unfold_handlers. cbn. rewrite Ha. cbn.
  unfold read. rewrite Ha.
  rewrite Hp, remove_nth_last, <- !app_assoc. repeat split.
Qed.

Lemma js_call_first_step (w : Runtime) (base rest : list Task)
  (v : option SkImage) :
  pending w = base ++ runOnJS_setFirstSnapshot v :: rest ->
  exists w', step (js_call (List.length base)) w = Some w'
             /\ pending w' = base ++ rest
             /\ app w' = with_firstSnapshot v (app w)
             /\ clock w' = clock w
             /\ trace w' = trace w ++ [setFirstSnapshot_called v].
Proof.
  intro Hp. unfold Screen.step.
  assert (Hn : nth_error (pending w) (List.length base)
               = Some (runOnJS_setFirstSnapshot v)).
  { rewrite Hp, nth_error_app2 by lia. now rewrite Nat.sub_diag. }
  rewrite Hn. eexists. split; [reflexivity|].
  unfold_handlers. cbn. repeat split.
  unfold remove_nth. rewrite Hp.
  rewrite firstn_app, Nat.sub_diag, firstn_all. cbn [firstn].
  rewrite app_nil_r.
  change (S (List.length base)) with (1 + List.length base)%nat.
  rewrite <- skipn_skipn, skipn_app, Nat.sub_diag, skipn_all.
  reflexivity.
Qed.

Lemma js_call_second_step (w : Runtime) (base rest : list Task)
  (v : option SkImage) :
  pending w = base ++ runOnJS_setSecondSnapshot v :: rest ->
  exists w', step (js_call (List.length base)) w = Some w'
             /\ pending w' = base ++ rest
             /\ app w' = with_secondSnapshot v (app w)
             /\ clock w' = clock w
             /\ trace w' = trace w ++ [setSecondSnapshot_called v].
Proof.
  intro Hp. unfold Screen.step.
  assert (Hn : nth_error (pending w) (List.length base)
               = Some (runOnJS_setSecondSnapshot v)).
  { rewrite Hp, nth_error_app2 by lia. now rewrite Nat.sub_diag. }
  rewrite Hn. eexists. split; [reflexivity|].
  unfold_handlers. cbn. repeat split.
  unfold remove_nth. rewrite Hp.
  rewrite firstn_app, Nat.sub_diag, firstn_all. cbn [firstn].
  rewrite app_nil_r.
  change (S (List.length base)) with (1 + List.length base)%nat.
  rewrite <- skipn_skipn, skipn_app, Nat.sub_diag, skipn_all.
  reflexivity.
Qed.


(** One whole toggle, from any state in which the theme switcher is on
    the screen: the press and the first capture, the timeout and the
    second capture, the animation and the calls of its callback. *)
Lemma toggle_run (w : Runtime) (b1 b2 : SkImage) :
  transitioning (app w) = false ->
  exists w2 w5 w9 calls,
    run (capture_first (slot w) b1) w = Some w2
    /\ run (capture_second (slot w) b2) w2 = Some w5
    /\ run (completion (slot w)) w5 = Some w9
    /\ app w2
       = with_colorScheme (toggled (colorScheme (app w)))
           (with_firstSnapshot (Some b1)
              (with_progress {| stored := 0; animation := None |} (app w)))
    /\ clock w2 = clock w
    /\ (calls = [] \/ calls = [callback_called false])
    /\ trace w2
       = (trace w ++ progress_assigned 0 :: calls)
         ++ [makeImageFromView_called;
             setFirstSnapshot_called (Some b1);
             setColorScheme_called (toggled (colorScheme (app w)));
             listener_called (toggled (colorScheme (app w)))]
    /\ app w5
       = with_progress
           {| stored := 0;
              animation :=
                Some {| toValue := 1; duration := 1700;
                        callback := clearSnapshots;
                        startValue := 0; startTime := clock w + 100 |} |}
           (with_colorSchemeSv (toggled (colorScheme (app w)))
              (with_secondSnapshot (Some b2) (app w2)))
    /\ clock w5 = clock w + 100
    /\ trace w5
       = trace w2
         ++ [console_log (toggled (colorScheme (app w)));
             makeImageFromView_called;
             setSecondSnapshot_called (Some b2);
             colorSchemeSv_assigned (toggled (colorScheme (app w)));
             withTiming_started 1 1700]
    /\ app w9
       = with_secondSnapshot None
           (with_firstSnapshot None
              (with_progress {| stored := 1; animation := None |} (app w5)))
    /\ clock w9 = clock w + 1800
    /\ trace w9
       = trace w5
         ++ [callback_called true;
             setFirstSnapshot_called None;
             setSecondSnapshot_called None].
Proof.
  intro Ht.
  destruct (press_step w Ht)
    as [w1 [base [calls [S1 [P1 [Hn [A1 [C1 [T1 Hcalls]]]]]]]]].
  destruct (first_capture_step w1 base b1) as [w2 [S2 [P2 [A2 [C2 T2]]]]].
  { rewrite P1, A1. reflexivity. }
  destruct (tick_step w2 100) as [w3 [S3 [A3 [P3 [T3 C3]]]]]; [lia|].
  destruct (timeout_step w3 base (clock w1 + 100)
              (toggled (colorScheme (app w1))))
    as [w4 [S4 [P4 [A4 [C4 T4]]]]].
  { now rewrite P3, P2. }
  { lia. }
  destruct (second_capture_step w4 base (toggled (colorScheme (app w1))) b2)
    as [w5 [S5 [P5 [A5 [C5 T5]]]]].
  { exact P4. }
  { rewrite A4, A3, A2, A1. reflexivity. }
  destruct (tick_step w5 1700) as [w6 [S6 [A6 [P6 [T6 C6]]]]]; [lia|].
  destruct (animation_ends_enqueues w6
              {| toValue := 1; duration := 1700; callback := clearSnapshots;
                 startValue := stored (progress (app w4));
                 startTime := clock w4 |})
    as [w7 [S7 [P7 [A7 [C7 T7]]]]].
  { rewrite A6, A5. reflexivity. }
  { cbn. lia. }
  destruct (js_call_first_step w7 base [runOnJS_setSecondSnapshot None] None)
    as [w8 [S8 [P8 [A8 [C8 T8]]]]].
  { rewrite P7, P6, P5, <- app_assoc. reflexivity. }
  destruct (js_call_second_step w8 base [] None)
    as [w9 [S9 [P9 [A9 [C9 T9]]]]].
  { exact P8. }
  assert (Hs : colorScheme (app w1) = colorScheme (app w))
    by (rewrite A1; reflexivity).
  rewrite Hs in *.
  exists w2, w5, w9, calls. rewrite <- Hn.
  unfold capture_first, capture_second, completion. cbn [Screen.run].
  rewrite S1, S2, S3, S4, S5, S6, S7, S8, S9.
  repeat split;
    rewrite ?T9, ?T8, ?T7, ?T6, ?T5, ?T4, ?T3, ?T2, ?T1,
      ?A9, ?A8, ?A7, ?A6, ?A5, ?A4, ?A3, ?A2, ?A1,
      ?C9, ?C8, ?C7, ?C6, ?C5, ?C4, ?C3, ?C2, ?C1, <- ?app_assoc;
    try reflexivity; try lia; try exact Hcalls.
Qed.


(** ** The render function *)

Variable NumberToString : float -> string.
Variable SkRuntimeEffect : Type.
Variable Make : string -> option SkRuntimeEffect.
Variables width height : Q.

Local Abbreviation render :=
  (Screen.render easing NumberToString SkRuntimeEffect Make width height).
Local Abbreviation curtain :=
  (Screen.curtain easing SkRuntimeEffect width height).
Local Abbreviation overlay := (Screen.overlay SkRuntimeEffect width height).
Local Abbreviation content := (Screen.content SkRuntimeEffect width).

(** The source handed to the compiler by [transition(directionalwrap)]:
    the head of the template, the wipe, the tail. *)
Lemma shader_source :
  snd (transition NumberToString SkRuntimeEffect Make
         (directionalwrap NumberToString))
  = [(transition_head ++ directionalwrap_text ++ transition_tail)%string].
Proof.
  unfold transition, frag.
  destruct (Make _); reflexivity.
Qed.

Lemma render_idle (w : Runtime) :
  transitioning (app w) = false ->
  render w
  = Returned (View false [flex 1] (overlay (app w) ++ [content (app w)])).
Proof. intro H. unfold Screen.render. cbv zeta. now rewrite H. Qed.

Lemma render_transitioning (w : Runtime) :
  transitioning (app w) = true ->
  render w
  = match Make (transition_head ++ directionalwrap_text ++ transition_tail)
            %string with
    | Some source => Returned (curtain source w)
    | None => Thrown "Couln't Compile Shader"
    end.
Proof.
  intro H. unfold Screen.render. cbv zeta. rewrite H.
  unfold transition, frag.
  change (glsl NumberToString [transition_head; transition_tail]
            [Str (directionalwrap NumberToString)])
    with (transition_head ++ directionalwrap_text ++ transition_tail)%string.
  destruct (Make _); reflexivity.
Qed.

Lemma images_drawn_content (a : App) : images_drawn (content a) = [].
Proof.
  unfold Screen.content, when_light. cbv zeta.
  destruct (scheme_eqb (colorScheme a) light); reflexivity.
Qed.


Lemma images_drawn_idle (a : App) :
  images_drawn (View false [flex 1] (overlay a ++ [content a]))
  = held (firstSnapshot a).
Proof.
  cbn [images_drawn]. rewrite flat_map_app. cbn [flat_map].
  rewrite images_drawn_content, !app_nil_r.
  unfold Screen.overlay, held. destruct (firstSnapshot a); reflexivity.
Qed.

(** The theme switcher is on the screen exactly when the component is not
    [transitioning]. *)
Lemma switcher_rendered (w : Runtime) (tree : Element SkRuntimeEffect) :
  render w = Returned tree ->
  has_switcher tree = negb (transitioning (app w)).
Proof.
  destruct (transitioning (app w)) eqn:Ht.
  - rewrite (render_transitioning w Ht).
    destruct (Make _); [|discriminate]. intro H; inversion H; subst.
    reflexivity.
  - rewrite (render_idle w Ht). intro H; inversion H; subst.
    cbn [has_switcher negb]. rewrite existsb_app.
    assert (Hc : has_switcher (content (app w)) = true).
    { unfold Screen.content, when_light. cbv zeta.
      destruct (scheme_eqb (colorScheme (app w)) light); reflexivity. }
    cbn [existsb]. rewrite Hc. cbn. apply orb_true_r.
Qed.


Local Abbreviation uniforms := (Screen.uniforms easing width height).

(** ** The specification of the screen component *)


(** C2.  [frag] throws exactly when [Skia.RuntimeEffect.Make] returns
    [null] on the source built by [glsl], and it then produces no effect;
    when the compilation gives an effect, [frag] returns that effect; in
    either case the compiler is called once, with that source, so nothing
    is retried and nothing else is tried.  Nothing catches the throw:
    [transition] is [frag] on its template, and rendering the
    [transitioning] branch throws with it. *)
Theorem frag_throws_iff_compile_fails (source : TemplateStringsArray)
  (values : Values) :
  let code := glsl NumberToString source values in
  let result := frag NumberToString SkRuntimeEffect Make source values in
  ((exists message, fst result = Thrown message) <-> Make code = None)
  /\ (Make code = None -> forall rt, fst result <> Returned rt)
  /\ (forall rt, Make code = Some rt <-> fst result = Returned rt)
  /\ snd result = [code]
  /\ (forall t,
        transition NumberToString SkRuntimeEffect Make t
        = frag NumberToString SkRuntimeEffect Make
            [transition_head; transition_tail] [Str t])
  /\ (forall w,
        transitioning (app w) = true ->
        Make (glsl NumberToString [transition_head; transition_tail]
                [Str (directionalwrap NumberToString)]) = None ->
        render w = Thrown "Couln't Compile Shader").
Proof.
  cbv zeta. unfold frag.
  destruct (Make (glsl NumberToString source values)) as [rt|] eqn:Hm;
    cbn [fst snd]; repeat split;
    try discriminate; try congruence; eauto;
    try (intros [message H]; discriminate);
    intros w Ht Hnone; rewrite (render_transitioning w Ht);
    change (glsl NumberToString [transition_head; transition_tail]
              [Str (directionalwrap NumberToString)])
      with (transition_head ++ directionalwrap_text ++ transition_tail)%string
      in Hnone;
    now rewrite Hnone.
Qed.


(** C9.  [changeTheme], resumed with the [colorScheme] of its closure,
    calls [Appearance.setColorScheme] with ["dark"] if and only if that
    scheme is ["light"], and with ["light"] for every other scheme, [null]
    and [undefined] included; the scheme of the component is then the one
    asked for.  In a toggle the scheme of the closure is the scheme at the
    press. *)
Theorem changeTheme_sets_dark_iff_light (scheme : ColorSchemeName)
  (snapshot1 : option SkImage) (w : Runtime) :
  let w' := exec (changeTheme_resume scheme snapshot1) w in
  (exists before after,
      trace w' = before ++ setColorScheme_called (toggled scheme) :: after
      /\ forall s, In (setColorScheme_called s) after -> False)
  /\ colorScheme (app w') = toggled scheme
  /\ (toggled scheme = dark <-> scheme = light)
  /\ (scheme <> light -> toggled scheme = light)
  /\ toggled null = light
  /\ toggled undefined = light
  /\ (forall image,
        transitioning (app w) = false ->
        exists w2, run (capture_first (slot w) image) w = Some w2
                   /\ colorScheme (app w2) = toggled (colorScheme (app w))).
Proof.
  cbv zeta. repeat split.
  - unfold_handlers. cbn.
    destruct (scheme_eqb (colorScheme (app w)) (toggled scheme)) eqn:He; cbn.
    + exists (trace w ++ [setFirstSnapshot_called snapshot1]), [].
      split; [reflexivity|]. intros s [].
    + exists (trace w ++ [setFirstSnapshot_called snapshot1]),
        [listener_called (toggled scheme)].
      split; [now rewrite <- !app_assoc|].
      intros s [H|[]]. discriminate.
  - unfold_handlers. cbn.
    destruct (scheme_eqb (colorScheme (app w)) (toggled scheme)) eqn:He; cbn;
      [|reflexivity].
    destruct (colorScheme (app w)), scheme; cbn in *; congruence.
  - destruct scheme; cbn; congruence.
  - intros ->. reflexivity.
  - destruct scheme; cbn; congruence.
  - intros image Ht.
    destruct (toggle_run w image image Ht)
      as [w2 [w5 [w9 [calls [R1 [_ [_ [A2 _]]]]]]]].
    exists w2. split; [exact R1|]. now rewrite A2.
Qed.


(** A step changes the phase only by a capture that completes the pair of
    snapshots, or by a call handed over by the animation callback. *)
Lemma phase_changes (e : Event) (w w' : Runtime) :
  Forall passes_null (pending w) -> step e w = Some w' ->
  phase (app w') <> phase (app w) ->
  (phase (app w') = in_transition
   /\ exists i image, e = capture_fulfilled i image)
  \/ (phase (app w') = idle /\ exists i, e = js_call i).
Proof.
  intros Hnull H. step_cases H; exec_handler;
    try (pose proof (passes_null_nth _ _ _ Hnull Hn) as Hv; cbn in Hv;
         subst);
    unfold phase, transitioning; cbn;
    destruct (firstSnapshot (app w)), (secondSnapshot (app w)); cbn;
    intro Hc; try contradiction;
    try (left; split; [reflexivity | eauto]);
    try (right; split; [reflexivity | eauto]).
Qed.


(** C5.  The screen has two phases, read off [transitioning]: it is in
    transition exactly when both snapshot references are non-null, and
    idle otherwise; it is idle when mounted.  It enters the transition only
    by a capture and leaves it only by a call handed over by the animation
    callback.  Whenever it is in transition the animation is running or
    its clearing call is waiting, and letting the animation complete
    brings the screen back to idle. *)
Theorem idle_transitioning_idle (w : Runtime) :
  reachable w ->
  (forall scheme t0, phase (app (mounted scheme t0)) = idle)
  /\ (phase (app w) = idle \/ phase (app w) = in_transition)
  /\ (phase (app w) = in_transition <->
      firstSnapshot (app w) <> None /\ secondSnapshot (app w) <> None)
  /\ (forall e w',
        step e w = Some w' ->
        phase (app w) = idle -> phase (app w') = in_transition ->
        exists i image, e = capture_fulfilled i image)
  /\ (forall e w',
        step e w = Some w' ->
        phase (app w) = in_transition -> phase (app w') = idle ->
        exists i, e = js_call i)
  /\ (phase (app w) = in_transition ->
      completion_ahead w
      /\ exists es w',
           Forall (fun e => completes e = true) es
           /\ run es w = Some w'
           /\ phase (app w') = idle).
Proof.
  intro Hw. pose proof (passes_null_reachable w Hw) as Hnull.
  split; [|split; [|split; [|split; [|split]]]].
  - reflexivity.
  - unfold phase. destruct (transitioning (app w)); auto.
  - apply phase_transitioning.
  - intros e w' Hs H0 H1.
    destruct (phase_changes e w w' Hnull Hs) as [[_ H]|[H _]];
      [congruence | exact H | congruence].
  - intros e w' Hs H0 H1.
    destruct (phase_changes e w w' Hnull Hs) as [[H _]|[_ H]];
      [congruence | congruence | exact H].
  - intro Hp. apply phase_transitioning in Hp. destruct Hp as [_ H2].
    pose proof (completion_ahead_reachable w Hw H2) as Hc.
    split; [exact Hc|].
    destruct (completion_run w Hc) as [es [w' [Hes [Hr Hn]]]].
    exists es, w'. repeat split; auto.
    now apply phase_idle_second_null.
Qed.

(** C10.  When the first snapshot is a bitmap and the second is still
    [null], the tree is the plain view whose first child is a canvas of the
    height of the window holding the first snapshot as an image of the
    size of the window, and whose second child is the content view, styled
    for the current colour scheme; no other bitmap is drawn.  This is the
    state a toggle is in after its first capture, the scheme being the new
    one. *)
Theorem first_snapshot_overlay (w : Runtime) (image : SkImage) :
  firstSnapshot (app w) = Some image ->
  secondSnapshot (app w) = None ->
  render w
  = Returned
      (View false [flex 1]
         [Canvas [style_height height]
            [Image SkRuntimeEffect (Some image) "cover" width height];
          content (app w)])
  /\ (forall tree, render w = Returned tree -> images_drawn tree = [image])
  /\ (exists children,
        content (app w)
        = View true
            [styles "container";
             when_light (colorScheme (app w))
               (backgroundColor "white") (backgroundColor "#020617")]
            children)
  /\ (forall w0 b1,
        transitioning (app w0) = false ->
        secondSnapshot (app w0) = None ->
        exists w2,
          run (capture_first (slot w0) b1) w0 = Some w2
          /\ firstSnapshot (app w2) = Some b1
          /\ secondSnapshot (app w2) = None
          /\ colorScheme (app w2) = toggled (colorScheme (app w0))).
Proof.
  intros H1 H2.
  assert (Ht : transitioning (app w) = false).
  { unfold transitioning. rewrite H1, H2. reflexivity. }
  assert (Hr : render w
               = Returned
                   (View false [flex 1]
                      [Canvas [style_height height]
                         [Image SkRuntimeEffect (Some image) "cover"
                            width height];
                       content (app w)])).
  { rewrite (render_idle w Ht). unfold Screen.overlay. rewrite H1.
    reflexivity. }
  split; [exact Hr|]. split; [|split].
  - intros tree Hr'. rewrite (render_idle w Ht) in Hr'. inversion Hr'.
    rewrite images_drawn_idle, H1. reflexivity.
  - unfold Screen.content. cbv zeta. eexists. reflexivity.
  - intros w0 b1 Ht0 Hs0.
    destruct (toggle_run w0 b1 b1 Ht0)
      as [w2 [w5 [w9 [calls [R1 [_ [_ [A2 _]]]]]]]].
    exists w2. rewrite A2. cbn. auto.
Qed.

End WithEasing.

(** Concrete runs of the properties above. *)

Lemma wiping_reachable : Screen.reachable Examples.linear Examples.wiping.
Proof.
  exists light, 0, Examples.second_events. vm_compute. reflexivity.
Defined.




Lemma idle_transitioning_idle_wiping :
  Screen.reachable Examples.linear Examples.wiping
  /\ phase (app Examples.wiping) = in_transition
  /\ exists es w',
       Forall (fun e => completes e = true) es
       /\ Screen.run Examples.linear es Examples.wiping = Some w'
       /\ phase (app w') = idle.
Proof.
  split; [exact wiping_reachable|]. split; [reflexivity|].
  pose proof (idle_transitioning_idle Examples.linear Examples.wiping
                wiping_reachable) as [_ [_ [_ [_ [_ H]]]]].
  exact (proj2 (H eq_refl)).
Defined.

Lemma first_snapshot_overlay_frozen :
  firstSnapshot (app Examples.frozen) = Some Examples.before_change
  /\ secondSnapshot (app Examples.frozen) = None
  /\ forall tree,
       Screen.render Examples.linear Examples.no_numbers unit
         Examples.compiles Examples.window_width Examples.window_height
         Examples.frozen = Returned tree ->
       images_drawn tree = [Examples.before_change].
Proof.
  split; [reflexivity|]. split; [reflexivity|].
  exact (proj1 (proj2
           (first_snapshot_overlay Examples.linear Examples.no_numbers unit
              Examples.compiles Examples.window_width Examples.window_height
              Examples.frozen Examples.before_change eq_refl eq_refl))).
Defined.

End ScreenFacts.

(* ================================================================= *)
(** * Properties of the curtain *)
(* ================================================================= *)

Module CurtainFacts.

Import Template Screen Glsl GlslFacts ScreenFacts.
Local Open Scope R_scope.

Section WithRuntime.

Variable easing : Q -> Q.
Variable NumberToString : float -> string.
Variable SkRuntimeEffect : Type.
Variable Make : string -> option SkRuntimeEffect.
Variables width height : Q.
Variable texture : option SkImage -> shader.

Local Abbreviation render :=
  (Screen.render easing NumberToString SkRuntimeEffect Make width height).
Local Abbreviation uniforms := (Screen.uniforms easing width height).
Local Abbreviation animatedBackgroundColor :=
  (Screen.animatedBackgroundColor easing).

(** C6.  While both snapshots are held, the tree is the animated view
    whose canvas is filled by the shader compiled from the head of the
    template, the wipe and the tail, with the first and the second
    snapshot as its two children, in this order.  The colour of a pixel is
    [mix] of one sample of the first snapshot (through [getFromColor]) and
    one sample of the second (through [getToColor]) by the mask [m]; [m]
    lies between [0] and [1] and is a function of the pixel position, of
    the fixed direction [(-1, 1)] and of the progress uniform only.  The
    same holds of the program for any two child shaders; on the screen
    the mask is [0] at progress [0] and [1] at progress [1]. *)
Theorem curtain_blends_two_snapshots (w : Runtime) (i1 i2 : SkImage)
  (source : SkRuntimeEffect) (xy : vec2) :
  firstSnapshot (app w) = Some i1 ->
  secondSnapshot (app w) = Some i2 ->
  Make (transition_head ++ directionalwrap_text ++ transition_tail)%string
  = Some source ->
  let element :=
    Shader source (uniforms w)
      [ImageShader SkRuntimeEffect (Some i1) "cover" width height;
       ImageShader SkRuntimeEffect (Some i2) "cover" width height] in
  let resolution := Vec2 (Q2R width) (Q2R height) in
  let uv := vdiv xy resolution in
  let m := wipe_mask (Q2R (u_progress (uniforms w))) uv in
  render w
  = Returned
      (AnimatedView [flex 1; animatedBackgroundColor w]
         [Canvas [style_height height] [Fill [element]]])
  /\ snd (Template.transition NumberToString SkRuntimeEffect Make
            (directionalwrap NumberToString))
     = [(transition_head ++ directionalwrap_text ++ transition_tail)%string]
  /\ Curtain.shade texture element xy
     = Some
         (mix
            (texture (Some i1)
               (vmul (vadds (vscale (vsubs uv (1 / 2)) (1 - m)) (1 / 2))
                  resolution))
            (texture (Some i2)
               (vmul (vadds (vscale (vsubs uv (1 / 2)) m) (1 / 2))
                  resolution))
            m)
  /\ 0 <= m <= 1
  /\ (forall (image1 image2 : shader) (progress : R) (res pixel : vec2),
        let uv' := vdiv pixel res in
        let m' := wipe_mask progress uv' in
        main image1 image2 progress res pixel
        = mix
            (image1
               (vmul (vadds (vscale (vsubs uv' (1 / 2)) (1 - m')) (1 / 2))
                  res))
            (image2
               (vmul (vadds (vscale (vsubs uv' (1 / 2)) m') (1 / 2)) res))
            m'
        /\ 0 <= m' <= 1)
  /\ (forall p : vec2,
        0 <= x p <= 1 -> 0 <= y p <= 1 ->
        wipe_mask 0 p = 0 /\ wipe_mask 1 p = 1).
Proof.
  intros H1 H2 Hm. cbv zeta.
  assert (Ht : transitioning (app w) = true).
  { unfold transitioning. rewrite H1, H2. reflexivity. }
  split; [|split; [|split; [|split; [|split]]]].
  - rewrite (render_transitioning easing NumberToString SkRuntimeEffect
               Make width height w Ht), Hm.
    unfold Screen.curtain. rewrite H1, H2. reflexivity.
  - apply shader_source.
  - unfold Curtain.shade. cbn [u_resolution fst snd Screen.uniforms].
    unfold main. cbv zeta. rewrite transition_mask. reflexivity.
  - apply wipe_mask_bounds.
  - intros image1 image2 progress res pixel. split.
    + unfold main. cbv zeta. apply transition_mask.
    + apply wipe_mask_bounds.
  - intros p Hx Hy. split.
    + now apply wipe_mask_start.
    + now apply wipe_mask_end.
Qed.

End WithRuntime.

Lemma curtain_blends_wiping :
  firstSnapshot (app Examples.wiping) = Some Examples.before_change
  /\ secondSnapshot (app Examples.wiping) = Some Examples.after_change
  /\ Examples.compiles
       (transition_head ++ directionalwrap_text ++ transition_tail)%string
     = Some tt
  /\ 0 <= wipe_mask
            (Q2R (u_progress
                    (Screen.uniforms Examples.linear Examples.window_width
                       Examples.window_height Examples.wiping)))
            (vdiv (Vec2 0 0)
               (Vec2 (Q2R Examples.window_width)
                  (Q2R Examples.window_height))) <= 1.
Proof.
  split; [reflexivity|]. split; [reflexivity|]. split; [reflexivity|].
  exact (proj1 (proj2 (proj2 (proj2
           (curtain_blends_two_snapshots Examples.linear Examples.no_numbers
              unit Examples.compiles Examples.window_width
              Examples.window_height Examples.flat Examples.wiping
              Examples.before_change Examples.after_change tt (Vec2 0 0)
              eq_refl eq_refl eq_refl))))).
Defined.

End CurtainFacts.

(* ================================================================= *)
(** * Properties of the card grid *)
(* ================================================================= *)

Module CardsFacts.

Import Cards.







End CardsFacts.

(* ================================================================= *)
(** * Further properties of the tagged templates *)
(* ================================================================= *)

Module TemplateMore.

Import Template TemplateFacts Inputs.
Local Open Scope string_scope.

Lemma concat_all_app (l1 l2 : list string) :
  concat_all (l1 ++ l2) = concat_all l1 ++ concat_all l2.
Proof.
  induction l1 as [|h l1 IH]; cbn; [reflexivity|].
  rewrite IH. induction h as [|c h IHh]; cbn; [reflexivity|].
  now rewrite IHh.
Qed.

Section WithNumberToString.

Variable NumberToString : float -> string.

Local Abbreviation glsl := (Template.glsl NumberToString).
Local Abbreviation render_value := (Template.render_value NumberToString).

(** Dropping the falsy strings of a list of strings does not change its
    concatenation. *)
Lemma concat_filter_strings (l : list Value) :
  forallb is_string l = true ->
  concat_all (map render_value (filter (fun v => negb (falsy v)) l))
  = concat_all (map render_value l).
Proof.
  induction l as [|v l IH]; [reflexivity|].
  cbn [forallb]. intro H. apply andb_true_iff in H. destruct H as [Hv Hl].
  destruct v as [s|n]; [|discriminate].
  cbn [filter].
  assert (Hh : negb (falsy (Str s)) = negb (String.eqb s "")).
  { unfold falsy, Boolean. now rewrite negb_involutive. }
  rewrite Hh.
  destruct (String.eqb_spec s "") as [->|Hs]; cbn [negb map concat_all].
  - rewrite (IH Hl). reflexivity.
  - rewrite (IH Hl). reflexivity.
Qed.

Lemma interleave_strings (source : list string) (values : Values) :
  forallb is_string values = true ->
  forallb is_string (interleave source values) = true.
Proof.
  revert values; induction source as [|s source IH]; intros values H;
    [reflexivity|].
  destruct values as [|v values]; cbn [interleave forallb is_string].
  - now apply IH.
  - cbn [forallb] in H. apply andb_true_iff in H. destruct H as [Hv Hl].
    rewrite Hv. cbn. now apply IH.
Qed.

Lemma interleave_firstn (source : list string) (values : Values) :
  interleave source (firstn (List.length source) values)
  = interleave source values.
Proof.
  revert values; induction source as [|s source IH]; intros values;
    [reflexivity|].
  destruct values as [|v values]; cbn [List.length firstn interleave];
    [reflexivity|].
  now rewrite IH.
Qed.

Lemma interleave_no_values (source : list string) :
  interleave source [] = map Str source.
Proof.
  induction source as [|s source IH]; cbn; [reflexivity | now rewrite IH].
Qed.

(** X1.  When every interpolated value is a string, [glsl] is the plain
    concatenation of the segments interleaved with the values: what
    [filter(Boolean)] drops are empty strings, which add nothing. *)
Theorem glsl_of_strings (source : TemplateStringsArray) (values : Values) :
  forallb is_string values = true ->
  glsl source values
  = concat_all (map render_value (interleave source values)).
Proof.
  intro H. rewrite glsl_is_glsl_spec. unfold glsl_spec.
  apply concat_filter_strings. now apply interleave_strings.
Qed.

(** X2.  [glsl] reads the values by position, one per segment: values past
    the last segment are ignored, a segment without a value stands alone,
    and a template without values gives the concatenation of its segments
    (nothing for no segment at all). *)
Theorem glsl_values_by_position (source : TemplateStringsArray)
  (values : Values) :
  glsl source values = glsl source (firstn (List.length source) values)
  /\ glsl source [] = concat_all source
  /\ glsl [] values = "".
Proof.
  split; [|split].
  - rewrite !glsl_is_glsl_spec. unfold glsl_spec.
    now rewrite interleave_firstn.
  - rewrite glsl_of_strings by reflexivity.
    rewrite interleave_no_values, map_map. cbn.
    induction source as [|s source IH]; cbn; [reflexivity|now rewrite IH].
  - reflexivity.
Qed.

Variable SkRuntimeEffect : Type.
Variable Make : string -> option SkRuntimeEffect.

(** X3.  For every wipe [t], [transition(t)] asks the compiler once, for
    the head of its template followed by [t] and by the tail, and its
    outcome is the compiler's on that source. *)
Theorem transition_compiles_head_t_tail (t : Transition) :
  let code := transition_head ++ t ++ transition_tail in
  snd (transition NumberToString SkRuntimeEffect Make t) = [code]
  /\ fst (transition NumberToString SkRuntimeEffect Make t)
     = match Make code with
       | Some rt => Returned rt
       | None => Thrown "Couln't Compile Shader"
       end.
Proof.
  cbv zeta.
  assert (Hc : glsl [transition_head; transition_tail] [Str t]
               = transition_head ++ t ++ transition_tail).
  { rewrite glsl_of_strings by reflexivity.
    cbn [interleave map concat_all Template.render_value ToString].
    now rewrite append_empty_r. }
  unfold transition, frag. rewrite Hc.
  destruct (Make _); split; reflexivity.
Qed.

End WithNumberToString.

Lemma glsl_of_strings_example :
  forallb is_string [Str ""; Str "x"] = true
  /\ Template.glsl Examples.no_numbers ["a"; ""; "c"] [Str ""; Str "x"]
     = "axc".
Proof.
  split; [reflexivity|].
  rewrite (glsl_of_strings Examples.no_numbers ["a"; ""; "c"]
             [Str ""; Str "x"] eq_refl).
  reflexivity.
Defined.

End TemplateMore.

(* ================================================================= *)
(** * Further properties of the wipe shader *)
(* ================================================================= *)

Module GlslMore.

Import Glsl GlslFacts Inputs.
Local Open Scope R_scope.




(** The pixel in terms of the mask. *)
Lemma main_mask (image1 image2 : shader) (progress : R)
  (resolution xy : vec2) :
  main image1 image2 progress resolution xy
  = let uv := vdiv xy resolution in
    let m := wipe_mask progress uv in
    mix (image1 (vmul (vadds (vscale (vsubs uv (1 / 2)) (1 - m)) (1 / 2))
                   resolution))
        (image2 (vmul (vadds (vscale (vsubs uv (1 / 2)) m) (1 / 2))
                   resolution))
        m.
Proof. unfold main. cbv zeta. apply transition_mask. Qed.

(** A pixel of the window, in units of the window. *)
Lemma uv_in_unit_square (resolution xy : vec2) :
  0 < x resolution -> 0 < y resolution -> in_window resolution xy ->
  0 <= x (vdiv xy resolution) <= 1 /\ 0 <= y (vdiv xy resolution) <= 1.
Proof.
  intros Hx Hy [[X0 X1] [Y0 Y1]]. unfold vdiv; cbn [x y]. unfold Rdiv.
  assert (0 < / x resolution) by now apply Rinv_0_lt_compat.
  assert (0 < / y resolution) by now apply Rinv_0_lt_compat.
  assert (x resolution * / x resolution = 1) by (apply Rinv_r; lra).
  assert (y resolution * / y resolution = 1) by (apply Rinv_r; lra).
  repeat split; nra.
Qed.





(** X6.  On a window of positive size the shader samples its two images
    inside the window only: the colour of a pixel of the window does not
    depend on what the images are outside the window, whatever the
    progress. *)
Theorem samples_stay_in_window (image1 image1' image2 image2' : shader)
  (progress : R) (resolution xy : vec2) :
  0 < x resolution -> 0 < y resolution -> in_window resolution xy ->
  (forall q, in_window resolution q -> image1 q = image1' q) ->
  (forall q, in_window resolution q -> image2 q = image2' q) ->
  main image1 image2 progress resolution xy
  = main image1' image2' progress resolution xy.
Proof.
  intros Hx Hy Hw H1 H2.
  destruct (uv_in_unit_square resolution xy Hx Hy Hw) as [Hu Hv].
  rewrite !main_mask. cbv zeta.
  pose proof (wipe_mask_bounds progress (vdiv xy resolution)) as Hm.
  set (m := wipe_mask progress (vdiv xy resolution)) in *.
  set (uv := vdiv xy resolution) in *.
  assert (Hin : forall k, 0 <= k <= 1 ->
             in_window resolution
               (vmul (vadds (vscale (vsubs uv (1 / 2)) k) (1 / 2))
                  resolution)).
  { intros k Hk. unfold in_window, vmul, vadds, vscale, vsubs; cbn [x y].
    assert (0 <= (x uv - 1 / 2) * k + 1 / 2 <= 1) by nra.
    assert (0 <= (y uv - 1 / 2) * k + 1 / 2 <= 1) by nra.
    repeat split; nra. }
  rewrite (H1 _ (Hin (1 - m) ltac:(lra))), (H2 _ (Hin m Hm)).
  reflexivity.
Qed.




Lemma samples_stay_in_window_example :
  in_window (Vec2 2 2) (Vec2 1 1)
  /\ main (solid (grey 0)) (solid (grey 1)) (1 / 2) (Vec2 2 2) (Vec2 1 1)
     = main (fun q => if Rle_dec (x q) 2 then grey 0 else grey 1)
         (solid (grey 1)) (1 / 2) (Vec2 2 2) (Vec2 1 1).
Proof.
  assert (Hw : in_window (Vec2 2 2) (Vec2 1 1))
    by (unfold in_window; cbn; lra).
  split; [exact Hw|].
  apply samples_stay_in_window; cbn; try lra; try exact Hw.
  - intros q [[_ Hq] _]. unfold solid. cbn in Hq.
    destruct (Rle_dec (x q) 2); [reflexivity|contradiction].
  - reflexivity.
Defined.


End GlslMore.

(* ================================================================= *)
(** * Further properties of the screen component *)
(* ================================================================= *)

Module ScreenMore.

Import Template Screen ScreenFacts Scenarios Inputs.
Local Open Scope Z_scope.

Local Arguments remove_nth : simpl never.

Ltac unfold_all :=
  unfold exec, changeTheme, changeTheme_resume, timeout_callback,
    timeout_resume, finish_animation, appearance_changed,
    Appearance_setColorScheme, listener, assign_progress,
    assign_progress_withTiming, cancel_animation, run_callback, runOnJS,
    setFirstSnapshot, setSecondSnapshot, dequeue, advance, enqueue, record,
    modify_app, gets, bind, ret in *.

Ltac enabled_cases H :=
  match type of H with Screen.step _ ?e _ = _ => destruct e end;
  unfold Screen.step in H;
  repeat match type of H with
    | context [match nth_error ?l ?i with _ => _ end] =>
        let Hn := fresh "Hn" in
        destruct (nth_error l i) as [[]|] eqn:Hn; try discriminate H
    | context [match animation ?v with _ => _ end] =>
        let Ha := fresh "Ha" in
        destruct (animation v) eqn:Ha; try discriminate H
    | context [if ?b then _ else _] =>
        let Hb := fresh "Hb" in
        destruct b eqn:Hb; try discriminate H
    end;
  inversion H; subst; clear H.

Lemma nth_error_middle {A : Type} (l1 l2 : list A) (t : A) :
  nth_error (l1 ++ t :: l2) (List.length l1) = Some t.
Proof.
  rewrite nth_error_app2 by lia. now rewrite Nat.sub_diag.
Qed.

Lemma remove_nth_middle {A : Type} (l1 l2 : list A) (t : A) :
  remove_nth (List.length l1) (l1 ++ t :: l2) = l1 ++ l2.
Proof.
  unfold remove_nth.
  rewrite firstn_app, Nat.sub_diag, firstn_all. cbn [firstn].
  rewrite app_nil_r.
  change (S (List.length l1)) with (1 + List.length l1)%nat.
  rewrite <- skipn_skipn, skipn_app, Nat.sub_diag, skipn_all.
  reflexivity.
Qed.

Section WithEasing.

Variable easing : Q -> Q.

Local Abbreviation step := (Screen.step easing).
Local Abbreviation run := (Screen.run easing).
Local Abbreviation reachable := (Screen.reachable easing).

(** ** More steps *)

Lemma press_step_idle (w : Runtime) :
  transitioning (app w) = false ->
  animation (progress (app w)) = None ->
  exists w1,
    step press w = Some w1
    /\ pending w1 = pending w ++ [changeTheme_awaiting (colorScheme (app w))]
    /\ app w1 = with_progress {| stored := 0; animation := None |} (app w)
    /\ clock w1 = clock w
    /\ trace w1
       = trace w ++ [progress_assigned 0; makeImageFromView_called].
Proof.
  intros Ht Ha. unfold Screen.step. rewrite Ht.
  eexists. split; [reflexivity|].
  unfold_all. cbn. rewrite Ha. cbn. rewrite <- app_assoc. repeat split.
Qed.

Lemma press_step_pending (w w1 : Runtime) :
  step press w = Some w1 ->
  pending w1
  = (pending w ++ cancelled_calls w)
    ++ [changeTheme_awaiting (colorScheme (app w))].
Proof.
  unfold Screen.step. destruct (transitioning (app w)); [discriminate|].
  intro H. inversion H. unfold cancelled_calls. unfold_all. cbn.
  destruct (animation (progress (app w))) as [a|];
    [destruct (callback a)|]; cbn; rewrite <- ?app_assoc, ?app_nil_r;
    reflexivity.
Qed.

Lemma changeTheme_capture_step (w : Runtime) (base rest : list Task)
  (scheme : ColorSchemeName) (image : SkImage) :
  pending w = base ++ changeTheme_awaiting scheme :: rest ->
  exists w',
    step (capture_fulfilled (List.length base) image) w = Some w'
    /\ firstSnapshot (app w') = Some image
    /\ secondSnapshot (app w') = secondSnapshot (app w)
    /\ colorScheme (app w') = toggled scheme
    /\ colorSchemeSv (app w') = colorSchemeSv (app w)
    /\ progress (app w') = progress (app w)
    /\ clock w' = clock w
    /\ pending w'
       = (base ++ rest)
         ++ (if scheme_eqb (colorScheme (app w)) (toggled scheme) then []
             else [timeout_scheduled (clock w + 100) (toggled scheme)])
    /\ trace w'
       = (trace w
          ++ [setFirstSnapshot_called (Some image);
              setColorScheme_called (toggled scheme)])
         ++ (if scheme_eqb (colorScheme (app w)) (toggled scheme) then []
             else [listener_called (toggled scheme)]).
Proof.
  intro Hp. unfold Screen.step. rewrite Hp, nth_error_middle.
  eexists. split; [reflexivity|].
  unfold_all. cbn. rewrite Hp, remove_nth_middle.
  destruct (scheme_eqb (colorScheme (app w)) (toggled scheme)) eqn:He; cbn;
    rewrite ?app_nil_r, <- ?app_assoc; repeat split.
  destruct (colorScheme (app w)), scheme; cbn in *; congruence.
Qed.




(** The waiting list after a whole toggle: the work of the toggle is
    done, what was waiting before still waits. *)
Lemma toggle_leaves_slot (w : Runtime) (b1 b2 : SkImage) :
  transitioning (app w) = false ->
  exists w9,
    run (toggle (slot w) b1 b2) w = Some w9
    /\ List.length (pending w9) = slot w
    /\ pending w9 = pending w ++ cancelled_calls w.
Proof.
  intro Ht.
  destruct (press_step easing w Ht)
    as [w1 [base [calls [S1 [P1 [Hn [A1 [C1 [T1 Hcalls]]]]]]]]].
  destruct (first_capture_step easing w1 base b1)
    as [w2 [S2 [P2 [A2 [C2 T2]]]]].
  { rewrite P1, A1. reflexivity. }
  destruct (tick_step easing w2 100) as [w3 [S3 [A3 [P3 [T3 C3]]]]]; [lia|].
  destruct (timeout_step easing w3 base (clock w1 + 100)
              (toggled (colorScheme (app w1))))
    as [w4 [S4 [P4 [A4 [C4 T4]]]]].
  { now rewrite P3, P2. }
  { lia. }
  destruct (second_capture_step easing w4 base
              (toggled (colorScheme (app w1))) b2)
    as [w5 [S5 [P5 [A5 [C5 T5]]]]].
  { exact P4. }
  { rewrite A4, A3, A2, A1. reflexivity. }
  destruct (tick_step easing w5 1700) as [w6 [S6 [A6 [P6 [T6 C6]]]]]; [lia|].
  destruct (animation_ends_enqueues easing w6
              {| toValue := 1; duration := 1700; callback := clearSnapshots;
                 startValue := stored (progress (app w4));
                 startTime := clock w4 |})
    as [w7 [S7 [P7 [A7 [C7 T7]]]]].
  { rewrite A6, A5. reflexivity. }
  { cbn. lia. }
  destruct (js_call_first_step easing w7 base
              [runOnJS_setSecondSnapshot None] None)
    as [w8 [S8 [P8 [A8 [C8 T8]]]]].
  { rewrite P7, P6, P5, <- app_assoc. reflexivity. }
  destruct (js_call_second_step easing w8 base [] None)
    as [w9 [S9 [P9 [A9 [C9 T9]]]]].
  { exact P8. }
  exists w9. rewrite <- Hn.
  unfold toggle, capture_first, capture_second, completion.
  cbn [Screen.run List.app].
  rewrite S1, S2, S3, S4, S5, S6, S7, S8, S9.
  rewrite P9, app_nil_r. repeat split.
  pose proof (press_step_pending w w1 S1) as P1'.
  rewrite P1 in P1'. now apply app_inj_tail in P1'.
Qed.

(** ** Further properties *)

(** X8.  Two toggles in a row: after the first the scheme is light or
    dark, whatever it was; after the second it is again the scheme before
    the first when that was light or dark, and dark when it was unset.
    After each toggle both snapshots are [null], [progress] rests at [1]
    and what was waiting before still waits, nothing more. *)
Theorem toggling_twice (w : Runtime) (b1 b2 b3 b4 : SkImage) :
  transitioning (app w) = false ->
  exists w9 w18,
    run (toggle (slot w) b1 b2) w = Some w9
    /\ run (toggle (slot w) b3 b4) w9 = Some w18
    /\ colorScheme (app w9) = toggled (colorScheme (app w))
    /\ (colorScheme (app w9) = light \/ colorScheme (app w9) = dark)
    /\ (colorScheme (app w) = light \/ colorScheme (app w) = dark ->
        colorScheme (app w18) = colorScheme (app w))
    /\ (colorScheme (app w) = null \/ colorScheme (app w) = undefined ->
        colorScheme (app w18) = dark)
    /\ snapshots_held (app w9) = []
    /\ snapshots_held (app w18) = []
    /\ progress (app w18) = {| stored := 1; animation := None |}
    /\ colorSchemeSv (app w18) = colorScheme (app w18)
    /\ pending w9 = pending w ++ cancelled_calls w
    /\ pending w18 = pending w9.
Proof.
  intro Ht.
  destruct (toggle_run easing w b1 b2 Ht)
    as [w2 [w5 [w9 [calls
         [R1 [R2 [R3 [A2 [C2 [Hcalls [T2 [A5 [C5 [T5 [A9 [C9 T9]]]]]]]]]]]]]]]].
  destruct (toggle_leaves_slot w b1 b2 Ht) as [w9' [R9 [L9 K9]]].
  assert (Hrun : run (toggle (slot w) b1 b2) w = Some w9).
  { unfold toggle. rewrite run_app, R1, run_app, R2. exact R3. }
  rewrite Hrun in R9. inversion R9; subst w9'.
  assert (Ht9 : transitioning (app w9) = false) by now rewrite A9.
  assert (Hs9 : slot w9 = slot w).
  { unfold slot at 1. rewrite L9, A9. cbn. lia. }
  destruct (toggle_run easing w9 b3 b4 Ht9)
    as [v2 [v5 [w18 [calls'
         [Q1 [Q2 [Q3 [B2 [D2 [_ [_ [B5 [D5 [_ [B9 [D9 _]]]]]]]]]]]]]]]].
  destruct (toggle_leaves_slot w9 b3 b4 Ht9) as [w18' [R18 [L18 K18]]].
  assert (Hrun' : run (toggle (slot w9) b3 b4) w9 = Some w18).
  { unfold toggle. rewrite run_app, Q1, run_app, Q2. exact Q3. }
  rewrite Hrun' in R18. inversion R18; subst w18'.
  rewrite Hs9 in *.
  assert (E9 : colorScheme (app w9) = toggled (colorScheme (app w)))
    by (rewrite A9, A5, A2; reflexivity).
  assert (E18 : colorScheme (app w18) = toggled (colorScheme (app w9)))
    by (rewrite B9, B5, B2; reflexivity).
  exists w9, w18. repeat split; auto.
  - rewrite E9. destruct (colorScheme (app w)); cbn; auto.
  - rewrite E18, E9. intros [H|H]; rewrite H; reflexivity.
  - rewrite E18, E9. intros [H|H]; rewrite H; reflexivity.
  - rewrite A9. reflexivity.
  - rewrite B9. reflexivity.
  - rewrite B9. reflexivity.
  - rewrite B9, B5, B2. reflexivity.
  - rewrite K18. unfold cancelled_calls. rewrite A9. cbn.
    apply app_nil_r.
Qed.

(** X9.  Two presses before the first capture is there toggle the theme
    once: both resumptions ask for the same scheme, the listener hears of
    one change and one timeout is waiting; the first snapshot is the
    capture of the second press. *)
Theorem double_press_toggles_once (w : Runtime) (b1 b2 : SkImage) :
  transitioning (app w) = false ->
  exists w',
    run (double_press (slot w) b1 b2) w = Some w'
    /\ colorScheme (app w') = toggled (colorScheme (app w))
    /\ firstSnapshot (app w') = Some b2
    /\ secondSnapshot (app w') = secondSnapshot (app w)
    /\ pending w'
       = (pending w ++ cancelled_calls w)
         ++ [timeout_scheduled (clock w + 100)
               (toggled (colorScheme (app w)))]
    /\ count is_listener_call (trace w')
       = S (count is_listener_call (trace w)).
Proof.
  intro Ht.
  destruct (press_step easing w Ht)
    as [w1 [base [calls [S1 [P1 [Hn [A1 [C1 [T1 Hcalls]]]]]]]]].
  assert (Ht1 : transitioning (app w1) = false) by now rewrite A1.
  assert (Ha1 : animation (progress (app w1)) = None) by now rewrite A1.
  destruct (press_step_idle w1 Ht1 Ha1) as [w2 [S2 [P2 [A2 [C2 T2]]]]].
  assert (Hs1 : colorScheme (app w1) = colorScheme (app w))
    by now rewrite A1.
  rewrite Hs1, P1, <- app_assoc in P2. cbn [app] in P2.
  destruct (changeTheme_capture_step w2 base
              [changeTheme_awaiting (colorScheme (app w))]
              (colorScheme (app w)) b1 P2)
    as [w3 [S3 [F3 [G3 [E3 [V3 [R3 [C3 [P3 T3]]]]]]]]].
  assert (Hs2 : colorScheme (app w2) = colorScheme (app w))
    by (rewrite A2; cbn; exact Hs1).
  rewrite Hs2, toggled_differs in P3, T3.
  rewrite <- app_assoc in P3. cbn [app] in P3.
  destruct (changeTheme_capture_step w3 base
              [timeout_scheduled (clock w2 + 100)
                 (toggled (colorScheme (app w)))]
              (colorScheme (app w)) b2 P3)
    as [w4 [S4 [F4 [G4 [E4 [V4 [R4 [C4 [P4 T4]]]]]]]]].
  assert (Hsame : scheme_eqb (colorScheme (app w3))
                    (toggled (colorScheme (app w))) = true).
  { rewrite E3. now destruct (colorScheme (app w)). }
  rewrite Hsame, app_nil_r in P4, T4.
  exists w4. rewrite <- Hn.
  unfold double_press. cbn [Screen.run]. rewrite S1, S2, S3, S4.
  repeat split; auto.
  - rewrite G4, G3, A2, A1. reflexivity.
  - rewrite P4, C2, C1. f_equal.
    pose proof (press_step_pending w w1 S1) as P1'.
    rewrite P1 in P1'. now apply app_inj_tail in P1'.
  - rewrite T4, T3, T2, T1. unfold count.
    rewrite !filter_app, !length_app. cbn [filter is_listener_call].
    destruct Hcalls as [-> | ->]; cbn; lia.
Qed.


Lemma due_soon_later (now later : Z) (l : list Task) :
  now <= later -> Forall (due_soon now) l -> Forall (due_soon later) l.
Proof.
  intros Hle H. rewrite Forall_forall in *. intros t Ht.
  specialize (H t Ht). destruct t; cbn in *; auto. lia.
Qed.

Lemma timing_constants_step (e : Event) (w w' : Runtime) :
  (forall a, animation (progress (app w)) = Some a ->
             is_curtain_timing a /\ startTime a <= clock w) ->
  Forall (due_soon (clock w)) (pending w) ->
  step e w = Some w' ->
  (forall a, animation (progress (app w')) = Some a ->
             is_curtain_timing a /\ startTime a <= clock w')
  /\ Forall (due_soon (clock w')) (pending w').
Proof.
  intros Hanim Hdue H. enabled_cases H; unfold_all; cbn;
    repeat match goal with
      | |- context [match animation ?v with _ => _ end] =>
          let E := fresh "E" in destruct (animation v) eqn:E; cbn
      | |- context [match callback ?a with _ => _ end] =>
          destruct (callback a); cbn
      | |- context [if scheme_eqb ?a ?b then _ else _] =>
          destruct (scheme_eqb a b); cbn
      end;
    (split;
     [ intros running Hrun; try discriminate;
       try (inversion Hrun; subst; cbn; repeat split; lia);
       try (destruct (Hanim running Hrun) as [Hc Hs]; split;
            [exact Hc | lia])
     | repeat first
         [ assumption
         | apply Forall_remove_nth
         | apply Forall_app; split
         | apply Forall_cons
         | apply Forall_nil
         | (eapply due_soon_later; [|eassumption];
            apply Z.leb_le in Hb; lia) ];
       try (cbn; lia); try exact I ]).
Qed.

(** X11.  In every reachable state, an animation running on [progress] is
    the one of the timeout callback: towards [1], over 1700 ms, with the
    callback that clears the snapshots, and started in the past; and every
    waiting timeout is due within 100 ms. *)
Theorem timing_constants (w : Runtime) :
  reachable w ->
  (forall a, animation (progress (app w)) = Some a ->
             is_curtain_timing a /\ startTime a <= clock w)
  /\ Forall (due_soon (clock w)) (pending w).
Proof.
  intro Hw. pattern w. revert w Hw. apply reachable_ind.
  - intros scheme t0. split; [intros a H; discriminate | constructor].
  - intros e w0 w1 _ [Ha Hd] Hs. eapply timing_constants_step; eauto.
Qed.

Lemma unit_fraction (dt : Z) :
  0 <= dt < 1700 ->
  (0 <= inject_Z dt / inject_Z 1700)%Q
  /\ (inject_Z dt / inject_Z 1700 <= 1)%Q.
Proof.
  intro H. unfold Qle, Qdiv, Qmult, Qinv, inject_Z. cbn. split; lia.
Qed.

(** ** The render function and the uniforms *)

Variable NumberToString : float -> string.
Variable SkRuntimeEffect : Type.
Variable Make : string -> option SkRuntimeEffect.
Variables width height : Q.

Local Abbreviation render :=
  (Screen.render easing NumberToString SkRuntimeEffect Make width height).
Local Abbreviation uniforms := (Screen.uniforms easing width height).
Local Abbreviation content := (Screen.content SkRuntimeEffect width).
Local Abbreviation animatedBackgroundColor :=
  (Screen.animatedBackgroundColor easing).

(** X12.  Whatever tree the component renders, the theme switcher is in it
    exactly when a press can happen: while the curtain is shown there is
    nothing to press. *)
Theorem press_needs_switcher (w : Runtime)
  (tree : Element SkRuntimeEffect) :
  render w = Returned tree ->
  (has_switcher tree = true <-> exists w', step press w = Some w').
Proof.
  intro Hr.
  rewrite (switcher_rendered easing NumberToString SkRuntimeEffect Make
             width height w tree Hr).
  unfold Screen.step. destruct (transitioning (app w)); cbn; split.
  - discriminate.
  - intros [w' H]. discriminate.
  - eauto.
  - reflexivity.
Qed.


(** X14.  With an easing curve that keeps the unit interval, the progress
    uniform stays between [0] and [1] from the second capture of a toggle
    on, however much time passes. *)
Theorem progress_stays_in_unit_interval (w : Runtime) (b1 b2 : SkImage) :
  keeps_unit_interval easing ->
  transitioning (app w) = false ->
  exists w2 w5,
    run (capture_first (slot w) b1) w = Some w2
    /\ run (capture_second (slot w) b2) w2 = Some w5
    /\ forall dt w',
         0 <= dt -> step (tick dt) w5 = Some w' ->
         (0 <= u_progress (uniforms w'))%Q
         /\ (u_progress (uniforms w') <= 1)%Q.
Proof.
  intros He Ht.
  destruct (toggle_run easing w b1 b2 Ht)
    as [w2 [w5 [w9 [calls
         [R1 [R2 [R3 [A2 [C2 [Hcalls [T2 [A5 [C5 [T5 [A9 [C9 T9]]]]]]]]]]]]]]]].
  exists w2, w5. split; [exact R1|]. split; [exact R2|].
  intros dt w' Hdt Hs.
  destruct (tick_step easing w5 dt Hdt) as [w1 [Hs1 [A1 [P1 [T1 C1]]]]].
  rewrite Hs1 in Hs. inversion Hs; subst w1.
  unfold Screen.uniforms, read, timing_value. cbn. rewrite A1, A5. cbn.
  replace (clock w' - (clock w + 100)) with dt by lia.
  destruct (Z.leb_spec 1700 dt) as [Hge|Hlt].
  - split; discriminate.
  - destruct (unit_fraction dt (conj Hdt Hlt)) as [Q0 Q1].
    destruct (He _ Q0 Q1) as [E0 E1].
    assert (Hq : (0 + (1 - 0) * easing (inject_Z dt / inject_Z 1700)
                  == easing (inject_Z dt / inject_Z 1700))%Q) by ring.
    rewrite Hq. split; assumption.
Qed.

(** X15.  While the curtain is shown after a toggle, its background is
    interpolated from the background colour of the content view under the
    scheme at the press to the one under the new scheme. *)
Theorem background_follows_themes (w : Runtime) (b1 b2 : SkImage) :
  transitioning (app w) = false ->
  exists w2 w5,
    run (capture_first (slot w) b1) w = Some w2
    /\ run (capture_second (slot w) b2) w2 = Some w5
    /\ animatedBackgroundColor w5
       = interpolated_backgroundColor
           (read easing (progress (app w5)) (clock w5))
           (hex (content_background (colorScheme (app w))),
            hex (content_background (colorScheme (app w5))))
    /\ (forall a, exists children,
          content a
          = View true
              [styles "container";
               backgroundColor (content_background (colorScheme a))]
              children).
Proof.
  intro Ht.
  destruct (toggle_run easing w b1 b2 Ht)
    as [w2 [w5 [w9 [calls
         [R1 [R2 [R3 [A2 [C2 [Hcalls [T2 [A5 [C5 [T5 [A9 [C9 T9]]]]]]]]]]]]]]]].
  exists w2, w5. split; [exact R1|]. split; [exact R2|]. split.
  - unfold Screen.animatedBackgroundColor. f_equal.
    rewrite A5, A2. cbn.
    destruct (colorScheme (app w)); reflexivity.
  - intro a. unfold Screen.content, content_background, when_light.
    cbv zeta. destruct (scheme_eqb (colorScheme a) light);
      eexists; reflexivity.
Qed.

End WithEasing.

(** Concrete runs of the further properties. *)

Lemma toggling_twice_at_rest :
  transitioning (app Examples.at_rest) = false
  /\ exists w18,
       Screen.run Examples.linear
         (toggle 0 Examples.before_change Examples.after_change
          ++ toggle 0 Examples.after_change Examples.before_change)
         Examples.at_rest = Some w18
       /\ colorScheme (app w18) = light.
Proof.
  split; [reflexivity|].
  destruct (toggling_twice Examples.linear Examples.at_rest
              Examples.before_change Examples.after_change
              Examples.after_change Examples.before_change eq_refl)
    as [w9 [w18 [R1 [R2 [_ [_ [Hback _]]]]]]].
  exists w18. change (slot Examples.at_rest) with 0%nat in R1, R2.
  rewrite run_app, R1, R2. split; [reflexivity|].
  apply Hback. now left.
Defined.

Lemma double_press_at_rest :
  transitioning (app Examples.at_rest) = false
  /\ exists w',
       Screen.run Examples.linear
         (double_press 0 Examples.before_change Examples.after_change)
         Examples.at_rest = Some w'
       /\ colorScheme (app w') = dark
       /\ pending w' = [timeout_scheduled 100 dark].
Proof.
  split; [reflexivity|].
  destruct (double_press_toggles_once Examples.linear Examples.at_rest
              Examples.before_change Examples.after_change eq_refl)
    as [w' [R [Hc [_ [_ [Hp _]]]]]].
  exists w'. split; [exact R|]. split; [exact Hc | exact Hp].
Defined.


Lemma timing_constants_wiping :
  Screen.reachable Examples.linear Examples.wiping
  /\ Forall (due_soon (clock Examples.wiping)) (pending Examples.wiping).
Proof.
  assert (R : Screen.reachable Examples.linear Examples.wiping).
  { exists light, 0, Examples.second_events. vm_compute. reflexivity. }
  split; [exact R|].
  exact (proj2 (timing_constants Examples.linear Examples.wiping R)).
Defined.

Lemma press_needs_switcher_at_rest :
  exists tree,
    Screen.render Examples.linear Examples.no_numbers unit Examples.compiles
      Examples.window_width Examples.window_height Examples.at_rest
    = Returned tree
    /\ (has_switcher tree = true <->
        exists w', Screen.step Examples.linear press Examples.at_rest
                   = Some w').
Proof.
  eexists. split; [reflexivity|].
  apply (press_needs_switcher Examples.linear Examples.no_numbers unit
           Examples.compiles Examples.window_width Examples.window_height).
  reflexivity.
Defined.


Lemma linear_keeps_unit_interval : keeps_unit_interval Examples.linear.
Proof. intros t H0 H1. unfold Examples.linear. now split. Defined.

Lemma progress_in_unit_interval_at_rest :
  keeps_unit_interval Examples.linear
  /\ transitioning (app Examples.at_rest) = false
  /\ exists w5,
       Screen.run Examples.linear Examples.second_events Examples.at_rest
       = Some w5
       /\ forall dt w',
            0 <= dt -> Screen.step Examples.linear (tick dt) w5 = Some w' ->
            (0 <= u_progress
                    (Screen.uniforms Examples.linear Examples.window_width
                       Examples.window_height w'))%Q.
Proof.
  split; [exact linear_keeps_unit_interval|]. split; [reflexivity|].
  destruct (progress_stays_in_unit_interval Examples.linear
              Examples.window_width Examples.window_height
              Examples.at_rest Examples.before_change Examples.after_change
              linear_keeps_unit_interval eq_refl)
    as [w2 [w5 [R1 [R2 H]]]].
  exists w5. split.
  - unfold Examples.second_events, Examples.first_events.
    change (slot Examples.at_rest) with 0%nat in R1, R2.
    rewrite run_app, R1. exact R2.
  - intros dt w' Hdt Hs. exact (proj1 (H dt w' Hdt Hs)).
Defined.

Lemma background_follows_themes_at_rest :
  transitioning (app Examples.at_rest) = false
  /\ exists w5,
       Screen.run Examples.linear Examples.second_events Examples.at_rest
       = Some w5
       /\ Screen.animatedBackgroundColor Examples.linear w5
          = interpolated_backgroundColor
              (read Examples.linear (progress (app w5)) (clock w5))
              ("#ffffff"%string, "#020617"%string).
Proof.
  split; [reflexivity|].
  destruct (background_follows_themes Examples.linear unit
              Examples.window_width Examples.at_rest
              Examples.before_change Examples.after_change eq_refl)
    as [w2 [w5 [R1 [R2 [Hbg _]]]]].
  exists w5.
  change (slot Examples.at_rest) with 0%nat in R1, R2.
  assert (R : Screen.run Examples.linear Examples.second_events
                Examples.at_rest = Some w5).
  { unfold Examples.second_events, Examples.first_events.
    rewrite run_app, R1. exact R2. }
  split; [exact R|]. rewrite Hbg.
  assert (Hw : w5 = Examples.wiping).
  { assert (Screen.run Examples.linear Examples.second_events
              Examples.at_rest = Some Examples.wiping)
      by (vm_compute; reflexivity).
    congruence. }
  rewrite Hw. reflexivity.
Defined.

End ScreenMore.

(* ================================================================= *)
(** * Further properties of the card grid *)
(* ================================================================= *)

Module CardsMore.

Import Cards CardsFacts.
Local Open Scope string_scope.









End CardsMore.
